(** * AR Jenga session server (src/server.cjs)

    A shallow embedding of the Socket.IO handlers of [src/server.cjs] and
    the properties of its room table, readiness, turn rotation and
    coordinate translation.

    The source file holds two revisions of the server.  The later one (the
    "full drop-in replacement", lines 269-539) is the one embedded here.
    It differs from the first in two places: [Room.addPlayer] copies the
    client's player data and overwrites [name] with the socket id and
    [ready] with a boolean, and the handlers look a participant up by
    [p.socket.id] where the first revision compares [p.playerData.name]
    with the socket id.  The control flow of the handlers is otherwise the
    same in both.

    Layout: JavaScript values ([JS]), the room table and the handlers
    ([Section Model]), example data, the vocabulary and invariants of the
    properties, the properties ([Section Properties]), and their instances
    on concrete runs. *)

From Stdlib Require Import List String Ascii Bool Arith NArith Lia.
From Stdlib Require Import Floats.PrimFloat DecimalString.
Import ListNotations.
Open Scope string_scope.
Set Warnings "-register-all".

(** ** JavaScript values

    Event payloads are what Socket.IO decodes from the wire: JSON data, or
    [undefined] when the client sent no argument.  Numbers are binary64
    floats, as in the language. *)

Module JS.

Inductive value : Type :=
| VUndefined
| VNull
| VBool (b : bool)
| VNum (n : float)
| VStr (s : string)
| VArr (items : list value)
| VObj (fields : list (string * value)).

(** An object's own properties, in insertion order.  (A real object lists
    its integer-like keys first; the difference shows only in the order of
    the fields of an emitted payload.) *)
Definition object : Type := list (string * value).

Definition nullish (v : value) : bool :=
  match v with
  | VUndefined | VNull => true
  | _ => false
  end.

(** [ToBoolean]: what [if (v)], [!v] and [!!v] test. *)
Definition truthy (v : value) : bool :=
  match v with
  | VUndefined | VNull => false
  | VBool b => b
  | VNum n => negb (is_nan n || is_zero n)
  | VStr s => negb (String.eqb s "")
  | VArr _ | VObj _ => true
  end.

Fixpoint lookup (k : string) (o : object) : option value :=
  match o with
  | [] => None
  | (k', v) :: o' => if String.eqb k' k then Some v else lookup k o'
  end.

Definition has_own (o : object) (k : string) : bool :=
  match lookup k o with
  | Some _ => true
  | None => false
  end.

(** [o[k]] on own properties: [undefined] when absent. *)
Definition get_own (o : object) (k : string) : value :=
  match lookup k o with
  | Some v => v
  | None => VUndefined
  end.

(** [o[k] = v]: overwrite in place, or append. *)
Fixpoint set_own (o : object) (k : string) (v : value) : object :=
  match o with
  | [] => [(k, v)]
  | (k', v') :: o' =>
      if String.eqb k' k then (k, v) :: o' else (k', v') :: set_own o' k v
  end.

(** [v.k] for the property names the handlers read ([roomId], [playerData],
    [position], [blockData], [playerId], [id], [quaternion], [ready], [x],
    [y], [z]): none is an array index, [length] or a member of a built-in
    prototype, so only a plain object can hold one.  Reading a property of
    [undefined] or [null] raises a TypeError ([None]). *)
Definition member (v : value) (k : string) : option value :=
  match v with
  | VUndefined | VNull => None
  | VObj fields => Some (get_own fields k)
  | VBool _ | VNum _ | VStr _ | VArr _ => Some VUndefined
  end.

(** A default value in a parameter list or a destructuring pattern,
    [x = {}]: used exactly when the value is [undefined]. *)
Definition default_empty (v : value) : value :=
  match v with
  | VUndefined => VObj []
  | _ => v
  end.

Definition index_key (i : nat) : string :=
  NilEmpty.string_of_uint (Nat.to_uint i).

Fixpoint indexed {A : Type} (f : A -> value) (i : nat) (l : list A) : object :=
  match l with
  | [] => []
  | a :: l' => (index_key i, f a) :: indexed f (S i) l'
  end.

(** The elements of a string are its UTF-16 code units.  Text is held
    here in UTF-8: a character of one, two or three bytes is one code unit,
    and a character of four bytes (one outside the Basic Multilingual
    Plane) is two, a surrogate pair, each half of which is written in the
    three-byte form.  A byte that starts no well-formed character stands
    for itself. *)
Definition continuation (c : ascii) : bool :=
  ((128 <=? N_of_ascii c) && (N_of_ascii c <? 192))%N.

Definition leads (c : ascii) (lo hi : N) : bool :=
  ((lo <=? N_of_ascii c) && (N_of_ascii c <? hi))%N.

(** The three-byte form of a code unit from 0x0800 on. *)
Definition three_bytes (u : N) : string :=
  String (ascii_of_N (224 + u / 4096))
    (String (ascii_of_N (128 + (u / 64) mod 64))
       (String (ascii_of_N (128 + u mod 64)) EmptyString)).

(** The surrogate pair of the character that the four bytes encode. *)
Definition surrogate_pair (c1 c2 c3 c4 : ascii) : list string :=
  let point :=
    ((N_of_ascii c1 mod 8) * 262144 + (N_of_ascii c2 mod 64) * 4096
     + (N_of_ascii c3 mod 64) * 64 + N_of_ascii c4 mod 64)%N in
  let offset := (point - 65536)%N in
  [three_bytes (55296 + offset / 1024); three_bytes (56320 + offset mod 1024)].

Fixpoint code_units (cs : list ascii) : list string :=
  match cs with
  | [] => []
  | c1 :: r1 =>
      let single := String c1 EmptyString :: code_units r1 in
      if leads c1 0 128 then single
      else
        match r1 with
        | [] => single
        | c2 :: r2 =>
            if leads c1 192 224 then
              if continuation c2
              then String c1 (String c2 EmptyString) :: code_units r2
              else single
            else
              match r2 with
              | [] => single
              | c3 :: r3 =>
                  if leads c1 224 240 then
                    if continuation c2 && continuation c3
                    then String c1 (String c2 (String c3 EmptyString))
                         :: code_units r3
                    else single
                  else
                    match r3 with
                    | [] => single
                    | c4 :: r4 =>
                        if leads c1 240 248 && continuation c2
                           && continuation c3 && continuation c4
                        then surrogate_pair c1 c2 c3 c4 ++ code_units r4
                        else single
                    end
              end
        end
  end.

(** The own enumerable properties [Object.assign] copies from a source:
    an object's fields, an array's elements, a string's code units, and
    nothing from the other primitives. *)
Definition own_props (v : value) : object :=
  match v with
  | VObj fields => fields
  | VArr items => indexed (fun e => e) 0 items
  | VStr s => indexed VStr 0 (code_units (list_ascii_of_string s))
  | VUndefined | VNull | VBool _ | VNum _ => []
  end.

(** [s === v] for a string [s]. *)
Definition str_eq (s : string) (v : value) : bool :=
  match v with
  | VStr t => String.eqb s t
  | _ => false
  end.

End JS.

Import JS.

(** ** The room table and the handlers *)

Section Model.

(** The runtime's conversions between text and numbers (the
    [StringNumericLiteral] grammar and [Number::toString]) are the
    language's, not the repository's; the model takes them as given.  Only
    coordinates that are strings or arrays ever reach them. *)
Variable StringToNumber : string -> float.
Variable NumberToString : float -> string.

(** [ToString].  A decoded object has no callable member of its own, so an
    own [toString] property hides [Object.prototype.toString] and the
    conversion raises a TypeError ([None]). *)
Fixpoint ToString (v : value) : option string :=
  match v with
  | VUndefined => Some "undefined"
  | VNull => Some "null"
  | VBool true => Some "true"
  | VBool false => Some "false"
  | VNum n => Some (NumberToString n)
  | VStr s => Some s
  | VArr items =>
      (fix join (l : list value) : option string :=
         match l with
         | [] => Some ""
         | e :: l' =>
             match (if nullish e then Some "" else ToString e), join l' with
             | Some s, Some r =>
                 Some (match l' with [] => s | _ :: _ => s ++ "," ++ r end)
             | _, _ => None
             end
         end) items
  | VObj fields =>
      if has_own fields "toString" then None else Some "[object Object]"
  end.

(** [ToNumber]: what the operands of [-] go through. *)
Definition ToNumber (v : value) : option float :=
  match v with
  | VUndefined => Some nan
  | VNull => Some zero
  | VBool true => Some one
  | VBool false => Some zero
  | VNum n => Some n
  | VStr s => Some (StringToNumber s)
  | VArr _ =>
      match ToString v with
      | Some s => Some (StringToNumber s)
      | None => None
      end
  | VObj fields => if has_own fields "toString" then None else Some nan
  end.

(** [a - b]. *)
Definition js_sub (a b : value) : option value :=
  match ToNumber a, ToNumber b with
  | Some x, Some y => Some (VNum (x - y)%float)
  | _, _ => None
  end.

(** An object the server itself creates and mutates ([{}], then
    [Object.assign] and assignments).  Writing the key [__proto__] goes
    through the setter of [Object.prototype] and replaces the prototype
    instead of adding a property, so such an object has its own properties
    and those it inherits from a client-supplied prototype. *)
Record jsobj : Type := mkObj { own : object; proto : object }.

Definition empty_obj : jsobj := {| own := []; proto := [] |}.

Definition obj_get (o : jsobj) (k : string) : value :=
  match lookup k (own o) with
  | Some v => v
  | None => get_own (proto o) k
  end.

Definition obj_set (o : jsobj) (k : string) (v : value) : jsobj :=
  if String.eqb k "__proto__" then
    match v with
    | VObj _ | VArr _ | VNull => {| own := own o; proto := own_props v |}
    | VUndefined | VBool _ | VNum _ | VStr _ => o
    end
  else {| own := set_own (own o) k v; proto := proto o |}.

(** [Object.assign(o, src)] for one source, given its own properties. *)
Definition obj_assign (o : jsobj) (src : object) : jsobj :=
  fold_left (fun acc kv => obj_set acc (fst kv) (snd kv)) src o.

(** What an emitted object looks like on the wire: its own properties. *)
Definition to_value (o : jsobj) : value := VObj (own o).

(** One entry of [room.players]: [{ socket, playerData }].  Only the
    socket's [id] is ever read. *)
Record player : Type := mkPlayer { socket : string; playerData : jsobj }.

Record Room : Type := mkRoom {
  roomId : string;
  players : list player;
  gameState : jsobj
}.

(** [new Room(roomId)] *)
Definition new_Room (id : string) : Room :=
  {| roomId := id; players := []; gameState := empty_obj |}.

(** [Room.addPlayer]:
    [playerData = Object.assign({}, playerData, { name: socket.id, ready: !!playerData.ready })]
    then [players.push].  [playerData.ready] raises on [null]. *)
Definition addPlayer (sid : string) (data : value) (room : Room) : option Room :=
  let data := default_empty data in
  match member data "ready" with
  | None => None
  | Some r =>
      let pd :=
        obj_assign (obj_assign empty_obj (own_props data))
          [("name", VStr sid); ("ready", VBool (truthy r))] in
      Some {| roomId := roomId room;
              players := players room ++ [{| socket := sid; playerData := pd |}];
              gameState := gameState room |}
  end.

(** [Room.isFull] *)
Definition isFull (room : Room) : bool :=
  (2 <=? List.length (players room))%nat.

(** [Room.getState] *)
Definition getState (room : Room) : value :=
  VObj [("roomId", VStr (roomId room));
        ("players", VArr (map (fun p => to_value (playerData p)) (players room)));
        ("gameState", to_value (gameState room))].

(** [Room.updateGameState]: [this.gameState[blockData.id] = blockData].
    No handler calls it. *)
Definition updateGameState (blockData : value) (room : Room) : option Room :=
  match member blockData "id" with
  | None => None
  | Some id =>
      match ToString id with
      | None => None
      | Some key =>
          Some {| roomId := roomId room;
                  players := players room;
                  gameState := obj_set (gameState room) key blockData |}
      end
  end.

(** [rooms]: a [Map] from room id to room.  Iteration follows insertion
    order, which the disconnect handler depends on. *)
Definition Rooms : Type := list (string * Room).

(** [rooms.get(roomId)]: every key is a string, so only a string finds one. *)
Fixpoint rooms_find (k : string) (rooms : Rooms) : option Room :=
  match rooms with
  | [] => None
  | (k', r) :: rooms' => if String.eqb k' k then Some r else rooms_find k rooms'
  end.

Definition rooms_get (roomId : value) (rooms : Rooms) : option Room :=
  match roomId with
  | VStr k => rooms_find k rooms
  | _ => None
  end.

(** [rooms.set(k, room)]: an existing key keeps its place and gets the new
    value; a new key goes last. *)
Fixpoint rooms_set (k : string) (room : Room) (rooms : Rooms) : Rooms :=
  match rooms with
  | [] => [(k, room)]
  | (k', r) :: rooms' =>
      if String.eqb k' k then (k, room) :: rooms'
      else (k', r) :: rooms_set k room rooms'
  end.

(** [rooms.delete(k)] *)
Fixpoint rooms_delete (k : string) (rooms : Rooms) : Rooms :=
  match rooms with
  | [] => []
  | (k', r) :: rooms' =>
      if String.eqb k' k then rooms' else (k', r) :: rooms_delete k rooms'
  end.

(** A handler mutates the room object that [rooms.get(roomId)] returned;
    the table then holds the mutated room under the same key. *)
Definition rooms_store (roomId : value) (room : Room) (rooms : Rooms) : Rooms :=
  match roomId with
  | VStr k => rooms_set k room rooms
  | _ => rooms
  end.

(** [players.find((p) => p.socket && p.socket.id === socket.id)] *)
Definition find_player (sid : string) (ps : list player) : option player :=
  find (fun p => String.eqb (socket p) sid) ps.

(** [players.findIndex((p) => p.socket.id === socket.id)]; [None] is -1. *)
Fixpoint findIndex (sid : string) (ps : list player) : option nat :=
  match ps with
  | [] => None
  | p :: ps' =>
      if String.eqb (socket p) sid then Some 0
      else option_map S (findIndex sid ps')
  end.

(** Assigning to a property of the found player's [playerData]: the first
    matching entry changes, in place. *)
Fixpoint set_player_prop (sid k : string) (v : value) (ps : list player) : list player :=
  match ps with
  | [] => []
  | p :: ps' =>
      if String.eqb (socket p) sid
      then {| socket := socket p; playerData := obj_set (playerData p) k v |} :: ps'
      else p :: set_player_prop sid k v ps'
  end.

Definition with_players (room : Room) (ps : list player) : Room :=
  {| roomId := roomId room; players := ps; gameState := gameState room |}.

(** [players.splice(index, 1)] *)
Fixpoint splice1 (index : nat) (ps : list player) : list player :=
  match ps, index with
  | [], _ => []
  | _ :: ps', O => ps'
  | p :: ps', S i => p :: splice1 i ps'
  end.

(** *** What a handler does to the outside

    [socket.emit] reaches the sender, [io.to(r).emit] every socket in the
    Socket.IO room [r], [socket.to(r).emit] every socket in [r] but the
    sender.  Who is in a Socket.IO room is the transport's business; the
    model records the addressing the handler chose. *)

Inductive target : Type :=
| ToSender (sid : string)
| ToRoom (room : value)
| ToOthers (sid : string) (room : value).

Inductive action : Type :=
| Join (sid : string) (room : value)
| Emit (to : target) (name : string) (payload : value).

(** A handler either returns or raises a TypeError that nothing catches;
    either way it leaves a room table and the actions performed so far. *)
Inductive outcome : Type :=
| Returned (rooms : Rooms) (out : list action)
| Threw (rooms : Rooms) (out : list action).

Definition rooms_of (o : outcome) : Rooms :=
  match o with
  | Returned rooms _ | Threw rooms _ => rooms
  end.

Definition out_of (o : outcome) : list action :=
  match o with
  | Returned _ out | Threw _ out => out
  end.

Definition threw (o : outcome) : bool :=
  match o with
  | Returned _ _ => false
  | Threw _ _ => true
  end.

Definition roomError (sid : string) (message : string) : action :=
  Emit (ToSender sid) "roomError" (VStr message).

(** [socket.on('createRoom', (playerData = {}) => ...)].  [fresh] is what
    [Math.random().toString(36).substring(7)] returned. *)
Definition createRoom (fresh : string) (sid : string) (payload : value)
    (rooms : Rooms) : outcome :=
  let data := default_empty payload in
  match addPlayer sid data (new_Room fresh) with
  | None => Threw rooms []
  | Some room =>
      Returned (rooms_set fresh room rooms)
        [Join sid (VStr fresh); Emit (ToSender sid) "roomCreated" (VStr fresh)]
  end.

(** [socket.on('joinRoom', ({ roomId, playerData = {} }) => ...)] *)
Definition joinRoom (sid : string) (payload : value) (rooms : Rooms) : outcome :=
  match member payload "roomId", member payload "playerData" with
  | Some roomId, Some data =>
      let data := default_empty data in
      match rooms_get roomId rooms with
      | None => Returned rooms [roomError sid "Room not found"]
      | Some room =>
          if isFull room then Returned rooms [roomError sid "Room is full"]
          else
            match addPlayer sid data room with
            | None => Threw rooms []
            | Some room' =>
                Returned (rooms_store roomId room' rooms)
                  [Join sid roomId;
                   Emit (ToSender sid) "joinedRoom"
                     (VObj [("roomId", roomId); ("state", getState room')]);
                   Emit (ToOthers sid roomId) "playerJoined"
                     (VObj [("playerId", VStr sid);
                            ("playerData",
                             to_value (obj_assign (obj_assign empty_obj (own_props data))
                                         [("name", VStr sid)]))])]
            end
      end
  | _, _ => Threw rooms []
  end.

(** [socket.on('set-base-position', ({ roomId, position }) => ...)] *)
Definition set_base_position (sid : string) (payload : value) (rooms : Rooms)
    : outcome :=
  match member payload "roomId", member payload "position" with
  | Some roomId, Some position =>
      match rooms_get roomId rooms with
      | None => Returned rooms [roomError sid "Room not found"]
      | Some room =>
          match find_player sid (players room) with
          | Some _ =>
              Returned
                (rooms_store roomId
                   (with_players room
                      (set_player_prop sid "basePosition" position (players room)))
                   rooms) []
          | None => Returned rooms []
          end
      end
  | _, _ => Threw rooms []
  end.

(** [room.players.every((p) => p.playerData.ready)] *)
Definition allReady (room : Room) : bool :=
  forallb (fun p => truthy (obj_get (playerData p) "ready")) (players room).

(** [socket.on('player-ready', ({ roomId }) => ...)].  With an empty player
    list [room.players[0]] is [undefined] and [.playerData] raises, after
    start-game went out.  The logs interpolate the socket id, the [roomId]
    of the room that was found (a string) and [firstPlayerId], the [name]
    that [Room.addPlayer] wrote (the socket id) and no handler
    overwrites. *)
Definition player_ready (sid : string) (payload : value) (rooms : Rooms) : outcome :=
  match member payload "roomId" with
  | Some roomId =>
      match rooms_get roomId rooms with
      | None => Returned rooms [roomError sid "Room not found"]
      | Some room =>
          let room' :=
            match find_player sid (players room) with
            | Some _ =>
                with_players room
                  (set_player_prop sid "ready" (VBool true) (players room))
            | None => room
            end in
          let rooms' := rooms_store roomId room' rooms in
          if allReady room' then
            let start :=
              Emit (ToRoom roomId) "start-game" (to_value (gameState room')) in
            match players room' with
            | [] => Threw rooms' [start]
            | first :: _ =>
                Returned rooms'
                  [start;
                   Emit (ToRoom roomId) "turn-update"
                     (VObj [("currentTurn", obj_get (playerData first) "name");
                            ("roomId", roomId)])]
            end
          else Returned rooms' []
      end
  | None => Threw rooms []
  end.

(** The object literal [relativeChange] of the update-block handler. *)
Definition relativeChange (blockData playerBasePosition : value) : option value :=
  match member blockData "id", member blockData "position" with
  | Some id, Some position =>
      match member position "x", member playerBasePosition "x",
            member position "y", member playerBasePosition "y",
            member position "z", member playerBasePosition "z" with
      | Some px, Some bx, Some py, Some by_, Some pz, Some bz =>
          match js_sub px bx, js_sub py by_, js_sub pz bz,
                member blockData "quaternion" with
          | Some x, Some y, Some z, Some quaternion =>
              Some (VObj [("id", id);
                          ("relativePosition",
                           VObj [("x", x); ("y", y); ("z", z)]);
                          ("quaternion", quaternion)])
          | _, _, _, _ => None
          end
      | _, _, _, _, _, _ => None
      end
  | _, _ => None
  end.

(** [socket.on('update-block', ({ roomId, blockData }) => ...)].  When no
    room is found the handler logs
    [`Room not found for roomId ${roomId}`] before it returns, and the
    template converts the client's [roomId] to a string, which raises for a
    value that has no string form.  The other logs of the handler
    interpolate the socket id, the [roomId] of a room that was found (a
    string) and the [name] that [Room.addPlayer] wrote (the socket id) and
    no handler overwrites. *)
Definition update_block (sid : string) (payload : value) (rooms : Rooms) : outcome :=
  match member payload "roomId", member payload "blockData" with
  | Some roomId, Some blockData =>
      match rooms_get roomId rooms with
      | None =>
          match ToString roomId with
          | None => Threw rooms []
          | Some _ => Returned rooms []
          end
      | Some room =>
          match find_player sid (players room) with
          | None => Returned rooms []
          | Some p =>
              let playerBasePosition := obj_get (playerData p) "basePosition" in
              if negb (truthy playerBasePosition) then Returned rooms []
              else
                match relativeChange blockData playerBasePosition with
                | None => Threw rooms []
                | Some change =>
                    let update :=
                      Emit (ToRoom roomId) "update-block"
                        (VObj [("roomId", roomId); ("blockData", change)]) in
                    match findIndex sid (players room) with
                    | None => Returned rooms [update]
                    | Some currentPlayerIndex =>
                        let nextPlayerIndex :=
                          Nat.modulo (currentPlayerIndex + 1)
                            (List.length (players room)) in
                        match nth_error (players room) nextPlayerIndex with
                        | None => Threw rooms [update]
                        | Some next =>
                            Returned rooms
                              [update;
                               Emit (ToRoom roomId) "turn-update"
                                 (VObj [("currentTurn",
                                         obj_get (playerData next) "name");
                                        ("roomId", roomId)])]
                        end
                    end
                end
          end
      end
  | _, _ => Threw rooms []
  end.

(** [socket.on('tower-collapsed', ({ roomId, playerId }) => ...)].  Once
    the room is found the handler logs
    [`Player ${playerId} caused tower collapse in room ${roomId}`] before
    it emits anything: the template converts the client's [playerId] to a
    string, which raises for a value that has no string form. *)
Definition tower_collapsed (sid : string) (payload : value) (rooms : Rooms)
    : outcome :=
  match member payload "roomId", member payload "playerId" with
  | Some roomId, Some playerId =>
      match rooms_get roomId rooms with
      | None => Returned rooms [roomError sid "Room not found"]
      | Some room =>
          match ToString playerId with
          | None => Threw rooms []
          | Some _ =>
              Returned rooms
                (Emit (ToRoom playerId) "game-result"
                   (VObj [("message",
                           VStr "You lost! You caused the tower to collapse.");
                          ("roomId", roomId); ("playerId", playerId)])
                 :: map (fun p =>
                           Emit (ToRoom (VStr (socket p))) "game-result"
                             (VObj [("message",
                                     VStr "You won! The other player caused the tower to collapse.");
                                    ("roomId", roomId)]))
                      (filter (fun p => negb (str_eq (socket p) playerId))
                         (players room)))
          end
      end
  | _, _ => Threw rooms []
  end.

(** The loop of the disconnect handler: the first room, in insertion order,
    that lists the socket loses that socket's first entry, and the loop
    stops ([break]).  The result is the loop's [roomId] and the table. *)
Fixpoint leave_first (sid : string) (rooms : Rooms) : option string * Rooms :=
  match rooms with
  | [] => (None, [])
  | (id, room) :: rooms' =>
      match findIndex sid (players room) with
      | Some index =>
          (Some id, (id, with_players room (splice1 index (players room))) :: rooms')
      | None =>
          let (found, rest) := leave_first sid rooms' in
          (found, (id, room) :: rest)
      end
  end.

(** [socket.on('disconnect', () => ...)].  [if (roomId)] is false both when
    no room was found and when the room's id is the empty string. *)
Definition disconnect (sid : string) (rooms : Rooms) : outcome :=
  match leave_first sid rooms with
  | (Some id, rooms') =>
      if truthy (VStr id) then
        match rooms_find id rooms' with
        | None => Threw rooms' []
        | Some room =>
            if (List.length (players room) =? 0)%nat
            then Returned (rooms_delete id rooms') []
            else Returned rooms'
                   [Emit (ToOthers sid (VStr id)) "playerDisconnected" (VStr sid)]
        end
      else Returned rooms' []
  | (None, rooms') => Returned rooms' []
  end.

(** *** The server as a transition system *)

Inductive event : Type :=
| CreateRoom (fresh : string) (payload : value)
| JoinRoom (payload : value)
| SetBasePosition (payload : value)
| PlayerReady (payload : value)
| UpdateBlock (payload : value)
| TowerCollapsed (payload : value)
| Disconnect.

Definition handle (sid : string) (ev : event) (rooms : Rooms) : outcome :=
  match ev with
  | CreateRoom fresh payload => createRoom fresh sid payload rooms
  | JoinRoom payload => joinRoom sid payload rooms
  | SetBasePosition payload => set_base_position sid payload rooms
  | PlayerReady payload => player_ready sid payload rooms
  | UpdateBlock payload => update_block sid payload rooms
  | TowerCollapsed payload => tower_collapsed sid payload rooms
  | Disconnect => disconnect sid rooms
  end.

(** Events are handled one at a time, to completion.  An uncaught TypeError
    ends the run. *)
Fixpoint run (trace : list (string * event)) (rooms : Rooms) : outcome :=
  match trace with
  | [] => Returned rooms []
  | (sid, ev) :: trace' =>
      match handle sid ev rooms with
      | Returned rooms' out =>
          match run trace' rooms' with
          | Returned rooms'' out' => Returned rooms'' (out ++ out')
          | Threw rooms'' out' => Threw rooms'' (out ++ out')
          end
      | Threw rooms' out => Threw rooms' out
      end
  end.

(** The room tables the server can be in: those some sequence of events
    leads to from the empty table (a handler that raised has left one
    too). *)
Inductive reachable : Rooms -> Prop :=
| reach_start : reachable []
| reach_step : forall rooms sid ev,
    reachable rooms -> reachable (rooms_of (handle sid ev rooms)).

End Model.

(** ** Example data

    The example runs further down send string ids and numeric coordinates
    only, so neither runtime conversion is ever called in them; they are run
    with these two placeholders in the runtime's place.  Clients send their
    connection id as [name], which is what the first revision of the server
    looks participants up by and what the later one overwrites [name] with,
    so the runs read the same on both. *)

Definition unused_StringToNumber (s : string) : float := nan.
Definition unused_NumberToString (n : float) : string := "".

(** [{ x, y, z }] *)
Definition vec3 (x y z : float) : value :=
  VObj [("x", VNum x); ("y", VNum y); ("z", VNum z)].

(** The player data of the client on connection [sid]: [{ name: sid }]. *)
Definition named (sid : string) : value := VObj [("name", VStr sid)].

(** [{ roomId: k, ...rest }] *)
Definition for_room (k : string) (rest : list (string * value)) : value :=
  VObj (("roomId", VStr k) :: rest).

(** [{ id, position, quaternion: null }] *)
Definition block (id : string) (position : value) : value :=
  VObj [("id", VStr id); ("position", position); ("quaternion", VNull)].

Definition example_run : list (string * event) -> Rooms -> outcome :=
  run unused_StringToNumber unused_NumberToString.

Definition example_update_block : string -> value -> Rooms -> outcome :=
  update_block unused_StringToNumber unused_NumberToString.

(** Connection A creates room r1 and connection B joins it. *)
Definition two_joined : list (string * event) :=
  [("A", CreateRoom "r1" (named "A"));
   ("B", JoinRoom (for_room "r1" [("playerData", named "B")]))].

(** ... then A calibrates at (1, 2, 3); B has not calibrated yet. *)
Definition rooms_A_calibrated : Rooms :=
  rooms_of (example_run
              (two_joined ++
               [("A", SetBasePosition (for_room "r1" [("position", vec3 1 2 3)]))])
              []).

(** ... or A signals ready; B has not yet. *)
Definition rooms_awaiting_B : Rooms :=
  rooms_of (example_run (two_joined ++ [("A", PlayerReady (for_room "r1" []))]) []).

(** Both calibrate, A at (1, 2, 3) and B at (0, 0, 0), and both signal
    ready: the game is on. *)
Definition rooms_in_play : Rooms :=
  rooms_of (example_run
              (two_joined ++
               [("A", SetBasePosition (for_room "r1" [("position", vec3 1 2 3)]));
                ("B", SetBasePosition (for_room "r1" [("position", vec3 0 0 0)]));
                ("A", PlayerReady (for_room "r1" []));
                ("B", PlayerReady (for_room "r1" []))])
              []).

(** An update-block payload moving block b1 to (4, 6, 8). *)
Definition move_b1 : value :=
  for_room "r1" [("blockData", block "b1" (vec3 4 6 8))].

(** Who is in which room. *)
Definition membership (rooms : Rooms) : list (string * list string) :=
  map (fun kr => (fst kr, map socket (players (snd kr)))) rooms.

(** ** Vocabulary of the properties *)

(** The ready flag and the server-side name of a participant. *)
Definition ready_of (p : player) : bool := truthy (obj_get (playerData p) "ready").
Definition name_of (p : player) : value := obj_get (playerData p) "name".

(** The last [turn-update] sent to the Socket.IO room [k]: the participant
    the clients currently take to be on turn. *)
Definition turn_update_for (k : string) (a : action) : option value :=
  match a with
  | Emit (ToRoom r) name payload =>
      if str_eq k r && String.eqb name "turn-update"
      then member payload "currentTurn"
      else None
  | _ => None
  end.

Fixpoint announced (k : string) (out : list action) : option value :=
  match out with
  | [] => None
  | a :: out' =>
      match announced k out' with
      | Some t => Some t
      | None => turn_update_for k a
      end
  end.

(** The room as the player-ready handler leaves it. *)
Definition after_ready (sid : string) (room : Room) : Room :=
  match find_player sid (players room) with
  | Some _ =>
      with_players room (set_player_prop sid "ready" (VBool true) (players room))
  | None => room
  end.

(** A room lists a connection when some entry of its player list is the
    connection's. *)
Definition lists (sid : string) (kr : string * Room) : Prop :=
  findIndex sid (players (snd kr)) <> None.

(** The room the socket leaves, after [splice]. *)
Definition without (i : nat) (room : Room) : Room :=
  with_players room (splice1 i (players room)).

(** A handler call that went through: it returned and emitted something.
    For update-block this is the path past all three guards. *)
Definition succeeded (o : outcome) : bool :=
  match o with
  | Returned _ (_ :: _) => true
  | _ => false
  end.

(** A series of update-block calls, as a trace. *)
Definition updates (calls : list (string * value)) : list (string * event) :=
  map (fun c => (fst c, UpdateBlock (snd c))) calls.

(** Two participant lists, entry by entry: the same connections, no flag
    reset, and a flag newly set only on an entry of the connection [sid],
    and only when the event was that connection's ready signal. *)
Definition flags_kept (sid : string) (signal : bool) (ps ps' : list player) : Prop :=
  Forall2 (fun p p' =>
             socket p' = socket p /\
             (ready_of p = true -> ready_of p' = true) /\
             (ready_of p = false -> ready_of p' = true ->
              signal = true /\ socket p = sid))
          ps ps'.

(** ** Invariants of the room table *)

Definition player_ok (p : player) : Prop :=
  name_of p = VStr (socket p) /\
  exists b, obj_get (playerData p) "ready" = VBool b.

(** What holds of every registered room, whatever happened before. *)
Definition room_sound (kr : string * Room) : Prop :=
  roomId (snd kr) = fst kr /\
  Forall player_ok (players (snd kr)) /\
  gameState (snd kr) = empty_obj /\
  List.length (players (snd kr)) <= 2.

(** A room whose id is not the empty string has a participant. *)
Definition room_inhabited (kr : string * Room) : Prop :=
  fst kr <> "" -> players (snd kr) <> [].

Definition wf (rooms : Rooms) : Prop :=
  NoDup (map fst rooms) /\ Forall room_sound rooms /\ Forall room_inhabited rooms.

(** ** Further vocabulary *)

(** The two game-result messages. *)
Definition lost_message (roomId playerId : value) : value :=
  VObj [("message", VStr "You lost! You caused the tower to collapse.");
        ("roomId", roomId); ("playerId", playerId)].

Definition won_message (roomId : value) : value :=
  VObj [("message", VStr "You won! The other player caused the tower to collapse.");
        ("roomId", roomId)].

(** * The HTTP layer: allowed origins

    The middleware that adds the CORS headers to every HTTP response, and
    the origin check handed to Socket.IO.  Both revisions have them, with a
    list of allowed origins that differs in its first entry. *)

Module Cors.

Local Open Scope list_scope.

(** [allowedOrigins], first and later revision. *)
Definition allowedOrigins_first : list string :=
  ["https://ar-jenga-frontend-2up5.vercel.app";
   "https://ar-jenga-five.vercel.app";
   "http://localhost:5173";
   "http://localhost:3000"].

Definition allowedOrigins : list string :=
  ["https://ar-jenga-1.onrender.com";
   "https://ar-jenga-five.vercel.app";
   "http://localhost:5173";
   "http://localhost:3000"].

(** [Array.prototype.indexOf] on strings; [None] is -1. *)
Fixpoint indexOf (l : list string) (x : string) : option nat :=
  match l with
  | [] => None
  | y :: l' => if String.eqb y x then Some 0 else option_map S (indexOf l' x)
  end.

(** What the middleware reads of a request: [req.method] and
    [req.headers.origin], a string or [undefined]. *)
Record request : Type := mkRequest { method : string; origin : option string }.

(** How the middleware ends: [next()] or [res.sendStatus(code)]. *)
Inductive ending : Type :=
| Next
| SendStatus (code : nat).

(** [origin && allowed.indexOf(origin) !== -1] *)
Definition listed (allowed : list string) (o : option string) : bool :=
  match o with
  | Some s =>
      truthy (VStr s) &&
      match indexOf allowed s with
      | Some _ => true
      | None => false
      end
  | None => false
  end.

(** The CORS middleware: the headers it sets with [res.header], in order,
    and how it ends. *)
Definition cors (allowed : list string) (req : request)
    : list (string * string) * ending :=
  ((match origin req with
    | Some s =>
        if listed allowed (Some s)
        then [("Access-Control-Allow-Origin", s)]
        else []
    | None => []
    end)
   ++ [("Access-Control-Allow-Methods", "GET,HEAD,PUT,PATCH,POST,DELETE");
       ("Access-Control-Allow-Headers",
        "Origin, X-Requested-With, Content-Type, Accept");
       ("Access-Control-Allow-Credentials", "true")],
   if String.eqb (method req) "OPTIONS" then SendStatus 204 else Next).

(** The verdict the Socket.IO origin function passes to its callback:
    [callback(null, true)] or [callback(new Error(message))]. *)
Inductive verdict : Type :=
| Allowed
| Refused (message : string).

(** [!origin || allowed.indexOf(origin) !== -1] *)
Definition socket_origin (allowed : list string) (o : option string) : verdict :=
  match o with
  | None => Allowed
  | Some s =>
      if negb (truthy (VStr s)) then Allowed
      else match indexOf allowed s with
           | Some _ => Allowed
           | None => Refused "Not allowed by CORS"
           end
  end.

(** The header a response ends up with under a name. *)
Fixpoint header (name : string) (headers : list (string * string)) : option string :=
  match headers with
  | [] => None
  | (n, v) :: headers' =>
      match header name headers' with
      | Some later => Some later
      | None => if String.eqb n name then Some v else None
      end
  end.

End Cors.

(** * The first revision of the handlers

    Lines 78-263 of the source.  [Room.addPlayer] stores the player data as
    the client sent it (possibly nothing at all), and set-base-position,
    player-ready and update-block find the sender's entry by comparing
    [p.playerData.name] with the socket id.  The rest reads as in the later
    revision. *)

Module FirstRevision.

Local Open Scope list_scope.

(** One entry of [room.players]: the socket's id and the player data as
    received. *)
Record player : Type := mkPlayer { socket : string; playerData : value }.

Record Room : Type := mkRoom {
  roomId : string;
  players : list player;
  gameState : jsobj
}.

Definition new_Room (id : string) : Room :=
  {| roomId := id; players := []; gameState := empty_obj |}.

Definition with_players (room : Room) (ps : list player) : Room :=
  {| roomId := roomId room; players := ps; gameState := gameState room |}.

(** [Room.addPlayer]: [this.players.push({ socket, playerData })] *)
Definition addPlayer (sid : string) (data : value) (room : Room) : Room :=
  with_players room (players room ++ [{| socket := sid; playerData := data |}]).

Definition isFull (room : Room) : bool :=
  (2 <=? List.length (players room))%nat.

(** [Room.getState] *)
Definition getState (room : Room) : value :=
  VObj [("roomId", VStr (roomId room));
        ("players", VArr (map playerData (players room)));
        ("gameState", to_value (gameState room))].

Definition Rooms : Type := list (string * Room).

Fixpoint rooms_find (k : string) (rooms : Rooms) : option Room :=
  match rooms with
  | [] => None
  | (k', r) :: rooms' => if String.eqb k' k then Some r else rooms_find k rooms'
  end.

Definition rooms_get (roomId : value) (rooms : Rooms) : option Room :=
  match roomId with
  | VStr k => rooms_find k rooms
  | _ => None
  end.

Fixpoint rooms_set (k : string) (room : Room) (rooms : Rooms) : Rooms :=
  match rooms with
  | [] => [(k, room)]
  | (k', r) :: rooms' =>
      if String.eqb k' k then (k, room) :: rooms'
      else (k', r) :: rooms_set k room rooms'
  end.

Fixpoint rooms_delete (k : string) (rooms : Rooms) : Rooms :=
  match rooms with
  | [] => []
  | (k', r) :: rooms' =>
      if String.eqb k' k then rooms' else (k', r) :: rooms_delete k rooms'
  end.

Definition rooms_store (roomId : value) (room : Room) (rooms : Rooms) : Rooms :=
  match roomId with
  | VStr k => rooms_set k room rooms
  | _ => rooms
  end.

(** [players.find((p) => p.playerData.name === socket.id)], and
    [findIndex] with the same test: the callback raises on an entry whose
    player data is [undefined] or [null], if the search gets that far. *)
Inductive search : Type :=
| Raised
| Missing
| At (index : nat) (p : player).

Fixpoint find_named (sid : string) (ps : list player) : search :=
  match ps with
  | [] => Missing
  | p :: ps' =>
      match member (playerData p) "name" with
      | None => Raised
      | Some name =>
          if str_eq sid name then At 0 p
          else match find_named sid ps' with
               | At i q => At (S i) q
               | Raised => Raised
               | Missing => Missing
               end
      end
  end.

(** [o.k = v] on the player data of an entry that [find] returned: it has
    a [name], so it is a plain object, and gets the property. *)
Definition assign_field (o : value) (k : string) (v : value) : value :=
  match o with
  | VObj fields => VObj (set_own fields k v)
  | _ => o
  end.

(** [player.playerData.k = v] for the entry [find] returned. *)
Fixpoint set_at (index : nat) (k : string) (v : value) (ps : list player)
    : list player :=
  match ps, index with
  | [], _ => []
  | p :: ps', O =>
      {| socket := socket p; playerData := assign_field (playerData p) k v |} :: ps'
  | p :: ps', S i => p :: set_at i k v ps'
  end.

(** [players.every((p) => p.playerData.ready)]: stops at the first entry
    that is not ready, raises on player data that is [undefined] or
    [null]. *)
Fixpoint every_ready (ps : list player) : option bool :=
  match ps with
  | [] => Some true
  | p :: ps' =>
      match member (playerData p) "ready" with
      | None => None
      | Some r => if truthy r then every_ready ps' else Some false
      end
  end.

Inductive outcome : Type :=
| Returned (rooms : Rooms) (out : list action)
| Threw (rooms : Rooms) (out : list action).

Definition rooms_of (o : outcome) : Rooms :=
  match o with
  | Returned rooms _ | Threw rooms _ => rooms
  end.

Definition out_of (o : outcome) : list action :=
  match o with
  | Returned _ out | Threw _ out => out
  end.

Definition threw (o : outcome) : bool :=
  match o with
  | Returned _ _ => false
  | Threw _ _ => true
  end.

(** [socket.on('createRoom', (playerData) => ...)] *)
Definition createRoom (fresh : string) (sid : string) (payload : value)
    (rooms : Rooms) : outcome :=
  Returned (rooms_set fresh (addPlayer sid payload (new_Room fresh)) rooms)
    [Join sid (VStr fresh); Emit (ToSender sid) "roomCreated" (VStr fresh)].

(** [socket.on('joinRoom', ({ roomId, playerData }) => ...)] *)
Definition joinRoom (sid : string) (payload : value) (rooms : Rooms) : outcome :=
  match member payload "roomId", member payload "playerData" with
  | Some roomId, Some data =>
      match rooms_get roomId rooms with
      | None => Returned rooms [roomError sid "Room not found"]
      | Some room =>
          if isFull room then Returned rooms [roomError sid "Room is full"]
          else
            Returned (rooms_store roomId (addPlayer sid data room) rooms)
              [Join sid roomId;
               Emit (ToSender sid) "joinedRoom"
                 (VObj [("roomId", roomId);
                        ("state", getState (addPlayer sid data room))]);
               Emit (ToOthers sid roomId) "playerJoined"
                 (VObj [("playerId", VStr sid); ("playerData", data)])]
      end
  | _, _ => Threw rooms []
  end.

(** [socket.on('set-base-position', ({ roomId, position }) => ...)] *)
Definition set_base_position (sid : string) (payload : value) (rooms : Rooms)
    : outcome :=
  match member payload "roomId", member payload "position" with
  | Some roomId, Some position =>
      match rooms_get roomId rooms with
      | None => Returned rooms [roomError sid "Room not found"]
      | Some room =>
          match find_named sid (players room) with
          | Raised => Threw rooms []
          | Missing => Returned rooms []
          | At index _ =>
              Returned
                (rooms_store roomId
                   (with_players room
                      (set_at index "basePosition" position (players room)))
                   rooms) []
          end
      end
  | _, _ => Threw rooms []
  end.

Section Runtime.

Variable StringToNumber : string -> float.
Variable NumberToString : float -> string.

(** [socket.on('player-ready', ({ roomId }) => ...)].  The log after the
    turn-update interpolates the first participant's [name], a value the
    client sent: the conversion to a string can raise. *)
Definition player_ready (sid : string) (payload : value) (rooms : Rooms) : outcome :=
  match member payload "roomId" with
  | Some roomId =>
      match rooms_get roomId rooms with
      | None => Returned rooms [roomError sid "Room not found"]
      | Some room =>
          match find_named sid (players room) with
          | Raised => Threw rooms []
          | found =>
              let room' :=
                match found with
                | At index _ =>
                    with_players room
                      (set_at index "ready" (VBool true) (players room))
                | _ => room
                end in
              let rooms' := rooms_store roomId room' rooms in
              match every_ready (players room') with
              | None => Threw rooms' []
              | Some false => Returned rooms' []
              | Some true =>
                  let start :=
                    Emit (ToRoom roomId) "start-game" (to_value (gameState room')) in
                  match players room' with
                  | [] => Threw rooms' [start]
                  | first :: _ =>
                      match member (playerData first) "name" with
                      | None => Threw rooms' [start]
                      | Some name =>
                          let turn :=
                            Emit (ToRoom roomId) "turn-update"
                              (VObj [("currentTurn", name); ("roomId", roomId)]) in
                          match ToString NumberToString name with
                          | None => Threw rooms' [start; turn]
                          | Some _ => Returned rooms' [start; turn]
                          end
                      end
                  end
              end
          end
      end
  | None => Threw rooms []
  end.

(** [socket.on('tower-collapsed', ({ roomId, playerId }) => ...)].  The
    log before the emits interpolates the client's [playerId]. *)
Definition tower_collapsed (sid : string) (payload : value) (rooms : Rooms)
    : outcome :=
  match member payload "roomId", member payload "playerId" with
  | Some roomId, Some playerId =>
      match rooms_get roomId rooms with
      | None => Returned rooms [roomError sid "Room not found"]
      | Some room =>
          match ToString NumberToString playerId with
          | None => Threw rooms []
          | Some _ =>
              Returned rooms
                (Emit (ToRoom playerId) "game-result"
                   (VObj [("message",
                           VStr "You lost! You caused the tower to collapse.");
                          ("roomId", roomId); ("playerId", playerId)])
                 :: map (fun p =>
                           Emit (ToRoom (VStr (socket p))) "game-result"
                             (VObj [("message",
                                     VStr "You won! The other player caused the tower to collapse.");
                                    ("roomId", roomId)]))
                      (filter (fun p => negb (str_eq (socket p) playerId))
                         (players room)))
          end
      end
  | _, _ => Threw rooms []
  end.

(** [players.findIndex((p) => p.socket.id === socket.id)] *)
Fixpoint findIndex (sid : string) (ps : list player) : option nat :=
  match ps with
  | [] => None
  | p :: ps' =>
      if String.eqb (socket p) sid then Some 0
      else option_map S (findIndex sid ps')
  end.

(** [players.splice(index, 1)] *)
Fixpoint splice1 (index : nat) (ps : list player) : list player :=
  match ps, index with
  | [], _ => []
  | _ :: ps', O => ps'
  | p :: ps', S i => p :: splice1 i ps'
  end.

(** The loop of the disconnect handler. *)
Fixpoint leave_first (sid : string) (rooms : Rooms) : option string * Rooms :=
  match rooms with
  | [] => (None, [])
  | (id, room) :: rooms' =>
      match findIndex sid (players room) with
      | Some index =>
          (Some id, (id, with_players room (splice1 index (players room))) :: rooms')
      | None =>
          let (found, rest) := leave_first sid rooms' in
          (found, (id, room) :: rest)
      end
  end.

(** [socket.on('disconnect', () => ...)] *)
Definition disconnect (sid : string) (rooms : Rooms) : outcome :=
  match leave_first sid rooms with
  | (Some id, rooms') =>
      if truthy (VStr id) then
        match rooms_find id rooms' with
        | None => Threw rooms' []
        | Some room =>
            if (List.length (players room) =? 0)%nat
            then Returned (rooms_delete id rooms') []
            else Returned rooms'
                   [Emit (ToOthers sid (VStr id)) "playerDisconnected" (VStr sid)]
        end
      else Returned rooms' []
  | (None, rooms') => Returned rooms' []
  end.

(** [socket.on('update-block', ({ roomId, blockData }) => ...)].  The
    object literal [relativeChange] is the one of the later revision.  Two
    logs convert a client's value to a string: the one for an unknown room
    interpolates [roomId], and the one after the turn-update interpolates
    the next participant's [name]. *)
Definition update_block (sid : string) (payload : value) (rooms : Rooms) : outcome :=
  match member payload "roomId", member payload "blockData" with
  | Some roomId, Some blockData =>
      match rooms_get roomId rooms with
      | None =>
          match ToString NumberToString roomId with
          | None => Threw rooms []
          | Some _ => Returned rooms []
          end
      | Some room =>
          match find_named sid (players room) with
          | Raised => Threw rooms []
          | Missing => Returned rooms []
          | At currentPlayerIndex p =>
              match member (playerData p) "basePosition" with
              | None => Threw rooms []
              | Some playerBasePosition =>
                  if negb (truthy playerBasePosition) then Returned rooms []
                  else
                    match relativeChange StringToNumber NumberToString
                            blockData playerBasePosition with
                    | None => Threw rooms []
                    | Some change =>
                        let update :=
                          Emit (ToRoom roomId) "update-block"
                            (VObj [("roomId", roomId); ("blockData", change)]) in
                        let nextPlayerIndex :=
                          Nat.modulo (currentPlayerIndex + 1)
                            (List.length (players room)) in
                        match nth_error (players room) nextPlayerIndex with
                        | None => Threw rooms [update]
                        | Some next =>
                            match member (playerData next) "name" with
                            | None => Threw rooms [update]
                            | Some name =>
                                let turn :=
                                  Emit (ToRoom roomId) "turn-update"
                                    (VObj [("currentTurn", name);
                                           ("roomId", roomId)]) in
                                match ToString NumberToString name with
                                | None => Threw rooms [update; turn]
                                | Some _ => Returned rooms [update; turn]
                                end
                            end
                        end
                    end
              end
          end
      end
  | _, _ => Threw rooms []
  end.

Definition handle (sid : string) (ev : event) (rooms : Rooms) : outcome :=
  match ev with
  | CreateRoom fresh payload => createRoom fresh sid payload rooms
  | JoinRoom payload => joinRoom sid payload rooms
  | SetBasePosition payload => set_base_position sid payload rooms
  | PlayerReady payload => player_ready sid payload rooms
  | UpdateBlock payload => update_block sid payload rooms
  | TowerCollapsed payload => tower_collapsed sid payload rooms
  | Disconnect => disconnect sid rooms
  end.

(** Events are handled one at a time, to completion; an uncaught TypeError
    ends the run. *)
Fixpoint run (trace : list (string * event)) (rooms : Rooms) : outcome :=
  match trace with
  | [] => Returned rooms []
  | (sid, ev) :: trace' =>
      match handle sid ev rooms with
      | Returned rooms' out =>
          match run trace' rooms' with
          | Returned rooms'' out' => Returned rooms'' (out ++ out')
          | Threw rooms'' out' => Threw rooms'' (out ++ out')
          end
      | Threw rooms' out => Threw rooms' out
      end
  end.

End Runtime.

End FirstRevision.

Module V1 := FirstRevision.


(** ** The two revisions side by side: what agreement means *)



(** An entry of the first revision and one of the later revision stand for
    the same participant in the same condition. *)
Definition agree_player (p1 : V1.player) (p2 : player) : Prop :=
  V1.socket p1 = socket p2 /\
  exists fields,
    V1.playerData p1 = VObj fields /\
    get_own fields "name" = VStr (socket p2) /\
    obj_get (playerData p2) "name" = VStr (socket p2) /\
    truthy (get_own fields "ready") = truthy (obj_get (playerData p2) "ready") /\
    get_own fields "basePosition" = obj_get (playerData p2) "basePosition".





(** ** What an event sent within a session may change *)

(** The events a participant sends within a session; the others are those
    by which a connection enters or leaves one. *)
Definition in_session (ev : event) : bool :=
  match ev with
  | SetBasePosition _ | PlayerReady _ | UpdateBlock _ | TowerCollapsed _ => true
  | CreateRoom _ _ | JoinRoom _ | Disconnect => false
  end.

(** An entry before and after an event from connection [sid]: the same
    socket; the very same entry unless it is one of [sid]'s; and at most
    its [basePosition] and [ready] differ. *)
Definition entry_kept (sid : string) (p p' : player) : Prop :=
  socket p' = socket p /\
  (socket p <> sid -> p' = p) /\
  (forall key, key <> "basePosition" -> key <> "ready" ->
               obj_get (playerData p') key = obj_get (playerData p) key).

Definition room_kept (sid : string) (kr kr' : string * Room) : Prop :=
  fst kr' = fst kr /\
  roomId (snd kr') = roomId (snd kr) /\
  gameState (snd kr') = gameState (snd kr) /\
  Forall2 (entry_kept sid) (players (snd kr)) (players (snd kr')).

Ltac break_match :=
  match goal with
  | |- context [match ?x with _ => _ end] => destruct x eqn:?
  end.

Section Properties.

Local Open Scope list_scope.

Variable StringToNumber : string -> float.
Variable NumberToString : float -> string.

Local Abbreviation handle := (handle StringToNumber NumberToString).
Local Abbreviation run := (run StringToNumber NumberToString).
Local Abbreviation update_block := (update_block StringToNumber NumberToString).
Local Abbreviation tower_collapsed := (tower_collapsed NumberToString).
Local Abbreviation ToString := (ToString NumberToString).
Local Abbreviation relativeChange := (relativeChange StringToNumber NumberToString).
Local Abbreviation reachable := (reachable StringToNumber NumberToString).

(** *** Objects *)

Lemma lookup_set_own_same (o : object) (k : string) (v : value) :
  lookup k (set_own o k v) = Some v.
Proof.
  induction o as [|[k' v'] o IH]; simpl.
  - now rewrite String.eqb_refl.
  - destruct (String.eqb k' k) eqn:E; simpl.
    + now rewrite String.eqb_refl.
    + now rewrite E.
Qed.

Lemma lookup_set_own_other (o : object) (k k' : string) (v : value) :
  k' <> k -> lookup k' (set_own o k v) = lookup k' o.
Proof.
  intros Hne.
  induction o as [|[k0 v0] o IH]; simpl.
  - destruct (String.eqb k k') eqn:E; [|reflexivity].
    apply String.eqb_eq in E. congruence.
  - destruct (String.eqb k0 k) eqn:E; simpl.
    + apply String.eqb_eq in E. subst k0.
      destruct (String.eqb k k') eqn:E'; [|reflexivity].
      apply String.eqb_eq in E'. congruence.
    + now rewrite IH.
Qed.

Lemma obj_get_set_same (o : jsobj) (k : string) (v : value) :
  k <> "__proto__" -> obj_get (obj_set o k v) k = v.
Proof.
  intros Hk. unfold obj_get, obj_set.
  destruct (String.eqb k "__proto__") eqn:E.
  - apply String.eqb_eq in E. contradiction.
  - simpl. now rewrite lookup_set_own_same.
Qed.

Lemma obj_get_set_other (o : jsobj) (k k' : string) (v : value) :
  k <> "__proto__" -> k' <> k -> obj_get (obj_set o k v) k' = obj_get o k'.
Proof.
  intros Hk Hne. unfold obj_get, obj_set.
  destruct (String.eqb k "__proto__") eqn:E.
  - apply String.eqb_eq in E. contradiction.
  - simpl. now rewrite lookup_set_own_other.
Qed.

(** [Room.addPlayer] appends one entry for the socket, named after it, whose
    ready flag is the truthiness of the [ready] the client sent. *)
Lemma addPlayer_some (sid : string) (data : value) (room room' : Room) :
  addPlayer sid data room = Some room' ->
  exists p r,
    member (default_empty data) "ready" = Some r /\
    players room' = (players room ++ [p])%list /\
    socket p = sid /\
    name_of p = VStr sid /\
    obj_get (playerData p) "ready" = VBool (truthy r) /\
    roomId room' = roomId room /\
    gameState room' = gameState room.
Proof.
  unfold addPlayer. intros H.
  destruct (member (default_empty data) "ready") as [r|] eqn:Hr; [|discriminate].
  injection H as <-. eexists. exists r. simpl.
  repeat split; try reflexivity.
  - unfold name_of. simpl. unfold obj_assign at 1. simpl.
    rewrite obj_get_set_other by discriminate.
    now rewrite obj_get_set_same by discriminate.
  - simpl. unfold obj_assign at 1. simpl.
    now rewrite obj_get_set_same by discriminate.
Qed.

Lemma addPlayer_none (sid : string) (data : value) (room : Room) :
  addPlayer sid data room = None <-> data = VNull.
Proof.
  unfold addPlayer. split.
  - destruct data; simpl; try discriminate. reflexivity.
  - intros ->. reflexivity.
Qed.

(** *** Player lists *)

Lemma find_player_findIndex (sid : string) (ps : list player) :
  find_player sid ps = None <-> findIndex sid ps = None.
Proof.
  unfold find_player. induction ps as [|p ps IH]; simpl; [tauto|].
  destruct (String.eqb (socket p) sid); [split; discriminate|].
  destruct (findIndex sid ps) as [j|]; simpl.
  - split; intros H; [apply IH in H|]; discriminate.
  - split; intros _; [reflexivity|now apply IH].
Qed.

Lemma findIndex_nth (sid : string) (ps : list player) (i : nat) :
  findIndex sid ps = Some i ->
  exists p, nth_error ps i = Some p /\ socket p = sid /\ find_player sid ps = Some p.
Proof.
  unfold find_player. revert i.
  induction ps as [|p ps IH]; simpl; intros i H; [discriminate|].
  destruct (String.eqb (socket p) sid) eqn:E.
  - injection H as <-. exists p. apply String.eqb_eq in E. auto.
  - destruct (findIndex sid ps) as [j|]; [|discriminate].
    injection H as <-. destruct (IH j eq_refl) as (q & Hq & Hs & Hf).
    exists q. auto.
Qed.

Lemma findIndex_lt (sid : string) (ps : list player) (i : nat) :
  findIndex sid ps = Some i -> i < List.length ps.
Proof.
  intros H. destruct (findIndex_nth _ _ _ H) as (p & Hp & _).
  apply nth_error_Some. congruence.
Qed.

Lemma set_player_prop_length (sid k : string) (v : value) (ps : list player) :
  List.length (set_player_prop sid k v ps) = List.length ps.
Proof.
  induction ps as [|p ps IH]; simpl; [reflexivity|].
  destruct (String.eqb (socket p) sid); simpl; congruence.
Qed.

Lemma set_player_prop_sockets (sid k : string) (v : value) (ps : list player) :
  map socket (set_player_prop sid k v ps) = map socket ps.
Proof.
  induction ps as [|p ps IH]; simpl; [reflexivity|].
  destruct (String.eqb (socket p) sid); simpl; congruence.
Qed.

Lemma set_player_prop_ok (sid k : string) (v : value) (ps : list player) :
  k <> "__proto__" -> k <> "name" ->
  (k = "ready" -> exists b, v = VBool b) ->
  Forall player_ok ps -> Forall player_ok (set_player_prop sid k v ps).
Proof.
  intros Hp Hn Hr. induction 1 as [|p ps Hok Hall IH]; simpl; [constructor|].
  destruct (String.eqb (socket p) sid); constructor; auto.
  destruct Hok as [Hname [b Hb]]. split.
  - unfold name_of in *. simpl. rewrite obj_get_set_other; auto.
  - simpl. destruct (string_dec k "ready") as [->|Hne].
    + destruct (Hr eq_refl) as [b' ->]. exists b'.
      now rewrite obj_get_set_same.
    + exists b. rewrite obj_get_set_other; auto.
Qed.

Lemma splice1_ok (i : nat) (ps : list player) :
  Forall player_ok ps -> Forall player_ok (splice1 i ps).
Proof.
  intros H. revert i. induction H as [|p ps Hok Hall IH]; intros [|i]; simpl;
    try constructor; auto.
Qed.

Lemma splice1_length (i : nat) (ps : list player) :
  List.length (splice1 i ps) <= List.length ps.
Proof.
  revert i. induction ps as [|p ps IH]; intros [|i]; simpl; auto.
  specialize (IH i). lia.
Qed.

Lemma splice1_app (l1 l2 : list player) (p : player) :
  splice1 (List.length l1) (l1 ++ p :: l2)%list = (l1 ++ l2)%list.
Proof. induction l1 as [|q l1 IH]; simpl; congruence. Qed.

(** *** The room table *)

Lemma rooms_find_set_same (k : string) (r : Room) (rooms : Rooms) :
  rooms_find k (rooms_set k r rooms) = Some r.
Proof.
  induction rooms as [|[k' r'] rooms IH]; simpl.
  - now rewrite String.eqb_refl.
  - destruct (String.eqb k' k) eqn:E; simpl.
    + now rewrite String.eqb_refl.
    + now rewrite E.
Qed.

Lemma rooms_find_set_other (k k' : string) (r : Room) (rooms : Rooms) :
  k' <> k -> rooms_find k' (rooms_set k r rooms) = rooms_find k' rooms.
Proof.
  intros Hne. induction rooms as [|[k0 r0] rooms IH]; simpl.
  - destruct (String.eqb k k') eqn:E; [|reflexivity].
    apply String.eqb_eq in E. congruence.
  - destruct (String.eqb k0 k) eqn:E; simpl.
    + apply String.eqb_eq in E. subst k0.
      destruct (String.eqb k k') eqn:E'; [|reflexivity].
      apply String.eqb_eq in E'. congruence.
    + now rewrite IH.
Qed.

Lemma rooms_find_In (k : string) (r : Room) (rooms : Rooms) :
  rooms_find k rooms = Some r -> In (k, r) rooms.
Proof.
  induction rooms as [|[k' r'] rooms IH]; simpl; [discriminate|].
  destruct (String.eqb k' k) eqn:E; intros H.
  - apply String.eqb_eq in E. left. congruence.
  - right. auto.
Qed.

Lemma rooms_find_None (k : string) (rooms : Rooms) :
  rooms_find k rooms = None <-> ~ In k (map fst rooms).
Proof.
  induction rooms as [|[k' r'] rooms IH]; simpl; [tauto|].
  destruct (String.eqb k' k) eqn:E.
  - apply String.eqb_eq in E. split; [discriminate|tauto].
  - apply String.eqb_neq in E. tauto.
Qed.

Lemma rooms_set_fresh (k : string) (r : Room) (rooms : Rooms) :
  rooms_find k rooms = None -> rooms_set k r rooms = (rooms ++ [(k, r)])%list.
Proof.
  induction rooms as [|[k' r'] rooms IH]; simpl; [reflexivity|].
  destruct (String.eqb k' k); [discriminate|]. intros H. now rewrite IH.
Qed.

Lemma rooms_set_keys (k : string) (r : Room) (rooms : Rooms) (x : string) :
  In x (map fst (rooms_set k r rooms)) -> x = k \/ In x (map fst rooms).
Proof.
  induction rooms as [|[k' r'] rooms IH]; simpl.
  - intros [H|[]]. auto.
  - destruct (String.eqb k' k) eqn:E; simpl.
    + apply String.eqb_eq in E. subst. tauto.
    + intros [H|H]; [tauto|]. destruct (IH H); tauto.
Qed.

Lemma rooms_set_NoDup (k : string) (r : Room) (rooms : Rooms) :
  NoDup (map fst rooms) -> NoDup (map fst (rooms_set k r rooms)).
Proof.
  induction rooms as [|[k' r'] rooms IH]; simpl; intros H.
  - repeat constructor. simpl. tauto.
  - inversion H as [|? ? Hnin Hnd]; subst.
    destruct (String.eqb k' k) eqn:E; simpl.
    + apply String.eqb_eq in E. subst. now constructor.
    + apply String.eqb_neq in E. constructor; auto.
      intros Hin. apply rooms_set_keys in Hin. destruct Hin; congruence.
Qed.

Lemma rooms_set_Forall (P : string * Room -> Prop) (k : string) (r : Room)
    (rooms : Rooms) :
  Forall P rooms -> P (k, r) -> Forall P (rooms_set k r rooms).
Proof.
  intros H Hk. induction H as [|[k' r'] rooms Hx Hall IH]; simpl.
  - auto.
  - destruct (String.eqb k' k); constructor; auto.
Qed.

Lemma wf_rooms_set (k : string) (r : Room) (rooms : Rooms) :
  wf rooms -> room_sound (k, r) -> room_inhabited (k, r) ->
  wf (rooms_set k r rooms).
Proof.
  intros (Hnd & Hs & Hi) Hrs Hri. repeat split.
  - now apply rooms_set_NoDup.
  - now apply rooms_set_Forall.
  - now apply rooms_set_Forall.
Qed.

Lemma wf_find (k : string) (r : Room) (rooms : Rooms) :
  wf rooms -> rooms_find k rooms = Some r ->
  room_sound (k, r) /\ room_inhabited (k, r).
Proof.
  intros (_ & Hs & Hi) H. apply rooms_find_In in H.
  rewrite Forall_forall in Hs, Hi. auto.
Qed.

Lemma rooms_find_middle (k : string) (r : Room) (l1 l2 : Rooms) :
  ~ In k (map fst l1) -> rooms_find k (l1 ++ (k, r) :: l2) = Some r.
Proof.
  induction l1 as [|[k' r'] l1 IH]; simpl; intros H.
  - now rewrite String.eqb_refl.
  - destruct (String.eqb k' k) eqn:E.
    + apply String.eqb_eq in E. tauto.
    + apply IH. tauto.
Qed.

Lemma rooms_delete_middle (k : string) (r : Room) (l1 l2 : Rooms) :
  ~ In k (map fst l1) -> rooms_delete k (l1 ++ (k, r) :: l2) = (l1 ++ l2)%list.
Proof.
  induction l1 as [|[k' r'] l1 IH]; simpl; intros H.
  - now rewrite String.eqb_refl.
  - destruct (String.eqb k' k) eqn:E.
    + apply String.eqb_eq in E. tauto.
    + rewrite IH; tauto.
Qed.

Lemma leave_first_None (sid : string) (rooms rooms' : Rooms) :
  leave_first sid rooms = (None, rooms') ->
  rooms' = rooms /\ Forall (fun kr => ~ lists sid kr) rooms.
Proof.
  revert rooms'. induction rooms as [|[k r] rooms IH]; simpl; intros rooms' H.
  - injection H as <-. auto.
  - destruct (findIndex sid (players r)) eqn:E; [discriminate|].
    destruct (leave_first sid rooms) as [found rest].
    injection H as -> <-. destruct (IH rest eq_refl) as [-> Hall].
    split; [reflexivity|]. constructor; [|exact Hall].
    unfold lists. simpl. rewrite E. tauto.
Qed.

Lemma leave_first_Some (sid id : string) (rooms rooms' : Rooms) :
  leave_first sid rooms = (Some id, rooms') ->
  exists l1 room l2 i,
    rooms = (l1 ++ (id, room) :: l2)%list /\
    Forall (fun kr => ~ lists sid kr) l1 /\
    findIndex sid (players room) = Some i /\
    rooms' = (l1 ++ (id, with_players room (splice1 i (players room))) :: l2)%list.
Proof.
  revert rooms'. induction rooms as [|[k r] rooms IH]; simpl; intros rooms' H.
  - discriminate.
  - destruct (findIndex sid (players r)) as [i|] eqn:E.
    + injection H as -> <-. exists [], r, rooms, i. simpl. auto.
    + destruct (leave_first sid rooms) as [found rest].
      injection H as -> <-.
      destruct (IH rest eq_refl) as (l1 & room & l2 & i & -> & Hl1 & Hi & ->).
      exists ((k, r) :: l1), room, l2, i. simpl.
      split; [reflexivity|]. split; [|split; [exact Hi|reflexivity]].
      constructor; [|exact Hl1]. unfold lists. simpl. rewrite E. tauto.
Qed.

(** *** Every handler keeps the table well formed *)

Lemma rooms_get_Some (v : value) (rooms : Rooms) (room : Room) :
  rooms_get v rooms = Some room ->
  exists k, v = VStr k /\ rooms_find k rooms = Some room.
Proof. destruct v; simpl; try discriminate. eauto. Qed.

Lemma wf_createRoom (fresh sid : string) (payload : value) (rooms : Rooms) :
  wf rooms -> wf (rooms_of (createRoom fresh sid payload rooms)).
Proof.
  intros Hwf. unfold createRoom.
  destruct (addPlayer sid (default_empty payload) (new_Room fresh))
    as [room|] eqn:Hadd; simpl; [|assumption].
  destruct (addPlayer_some _ _ _ _ Hadd)
    as (p & r & _ & Hps & Hsock & Hname & Hready & Hid & Hgs).
  simpl in Hps, Hid, Hgs.
  apply wf_rooms_set; [assumption| |].
  - unfold room_sound. simpl. rewrite Hps, Hid, Hgs. simpl.
    repeat split; auto.
    constructor; [|constructor]. split; [congruence|eauto].
  - unfold room_inhabited. simpl. rewrite Hps. discriminate.
Qed.

Lemma wf_joinRoom (sid : string) (payload : value) (rooms : Rooms) :
  wf rooms -> wf (rooms_of (joinRoom sid payload rooms)).
Proof.
  intros Hwf. unfold joinRoom.
  destruct (member payload "roomId") as [rid|]; [|assumption].
  destruct (member payload "playerData") as [data|]; [|assumption].
  destruct (rooms_get rid rooms) as [room|] eqn:Hget; [|assumption].
  destruct (isFull room) eqn:Hfull; [assumption|].
  destruct (addPlayer sid (default_empty data) room) as [room'|] eqn:Hadd;
    [|assumption].
  destruct (rooms_get_Some _ _ _ Hget) as (k & -> & Hfind). simpl.
  destruct (wf_find _ _ _ Hwf Hfind) as [(Hid & Hok & Hgs & Hlen) _].
  destruct (addPlayer_some _ _ _ _ Hadd)
    as (p & r & _ & Hps & Hsock & Hname & Hready & Hid' & Hgs').
  simpl in *. unfold isFull in Hfull. apply Nat.leb_gt in Hfull.
  apply wf_rooms_set; [assumption| |].
  - unfold room_sound. simpl. rewrite Hps, Hid', Hgs', length_app. simpl.
    repeat split; auto; [|lia].
    apply Forall_app. split; [assumption|].
    constructor; [|constructor]. split; [congruence|eauto].
  - unfold room_inhabited. simpl. rewrite Hps. intros _.
    destruct (players room); discriminate.
Qed.

Lemma room_with_prop_ok (sid k key : string) (v : value) (room : Room) :
  key <> "__proto__" -> key <> "name" ->
  (key = "ready" -> exists b, v = VBool b) ->
  room_sound (k, room) -> room_inhabited (k, room) ->
  room_sound (k, with_players room (set_player_prop sid key v (players room))) /\
  room_inhabited (k, with_players room (set_player_prop sid key v (players room))).
Proof.
  intros Hp Hn Hr (Hid & Hok & Hgs & Hlen) Hinh.
  unfold room_sound, room_inhabited in *. simpl in *.
  rewrite set_player_prop_length. repeat split; auto.
  - now apply set_player_prop_ok.
  - intros Hk Hnil. apply (f_equal (@List.length player)) in Hnil.
    rewrite set_player_prop_length in Hnil.
    apply Hinh; [assumption|]. now apply length_zero_iff_nil.
Qed.

Lemma wf_set_base_position (sid : string) (payload : value) (rooms : Rooms) :
  wf rooms -> wf (rooms_of (set_base_position sid payload rooms)).
Proof.
  intros Hwf. unfold set_base_position.
  destruct (member payload "roomId") as [rid|]; [|assumption].
  destruct (member payload "position") as [position|]; [|assumption].
  destruct (rooms_get rid rooms) as [room|] eqn:Hget; [|assumption].
  destruct (find_player sid (players room)); [|assumption].
  destruct (rooms_get_Some _ _ _ Hget) as (k & -> & Hfind). simpl.
  destruct (wf_find _ _ _ Hwf Hfind) as [Hs Hi].
  destruct (room_with_prop_ok sid k "basePosition" position room) as [Hs' Hi'];
    try assumption; try discriminate.
  now apply wf_rooms_set.
Qed.

Lemma player_ready_rooms (sid : string) (payload rid : value) (rooms : Rooms)
    (room : Room) :
  member payload "roomId" = Some rid ->
  rooms_get rid rooms = Some room ->
  rooms_of (player_ready sid payload rooms)
  = rooms_store rid (after_ready sid room) rooms.
Proof.
  intros Hm Hget. unfold player_ready. rewrite Hm, Hget.
  fold (after_ready sid room).
  destruct (allReady (after_ready sid room)); [|reflexivity].
  destruct (players (after_ready sid room)); reflexivity.
Qed.

Lemma after_ready_ok (sid k : string) (room : Room) :
  room_sound (k, room) -> room_inhabited (k, room) ->
  room_sound (k, after_ready sid room) /\ room_inhabited (k, after_ready sid room).
Proof.
  intros Hs Hi. unfold after_ready.
  destruct (find_player sid (players room)); [|auto].
  apply room_with_prop_ok; auto; try discriminate. eauto.
Qed.

Lemma wf_player_ready (sid : string) (payload : value) (rooms : Rooms) :
  wf rooms -> wf (rooms_of (player_ready sid payload rooms)).
Proof.
  intros Hwf.
  destruct (member payload "roomId") as [rid|] eqn:Hm;
    [|unfold player_ready; now rewrite Hm].
  destruct (rooms_get rid rooms) as [room|] eqn:Hget;
    [|unfold player_ready; now rewrite Hm, Hget].
  rewrite (player_ready_rooms _ _ _ _ _ Hm Hget).
  destruct (rooms_get_Some _ _ _ Hget) as (k & -> & Hfind). simpl.
  destruct (wf_find _ _ _ Hwf Hfind) as [Hs Hi].
  destruct (after_ready_ok sid k room Hs Hi).
  now apply wf_rooms_set.
Qed.

(** update-block and tower-collapsed never write to the table. *)
Lemma update_block_rooms (sid : string) (payload : value) (rooms : Rooms) :
  rooms_of (update_block sid payload rooms) = rooms.
Proof.
  unfold update_block. repeat break_match; reflexivity.
Qed.

Lemma tower_collapsed_rooms (sid : string) (payload : value) (rooms : Rooms) :
  rooms_of (tower_collapsed sid payload rooms) = rooms.
Proof.
  unfold tower_collapsed. repeat break_match; reflexivity.
Qed.

(** *** The disconnect handler, case by case *)

Lemma leave_first_unlisted (sid : string) (rooms : Rooms) :
  Forall (fun kr => ~ lists sid kr) rooms -> leave_first sid rooms = (None, rooms).
Proof.
  induction 1 as [|[k r] rooms Hx Hall IH]; simpl; [reflexivity|].
  unfold lists in Hx. simpl in Hx.
  destruct (findIndex sid (players r)); [exfalso; apply Hx; discriminate|].
  now rewrite IH.
Qed.

Lemma leave_first_middle (sid id : string) (room : Room) (l1 l2 : Rooms) (i : nat) :
  Forall (fun kr => ~ lists sid kr) l1 ->
  findIndex sid (players room) = Some i ->
  leave_first sid (l1 ++ (id, room) :: l2)
  = (Some id, l1 ++ (id, with_players room (splice1 i (players room))) :: l2).
Proof.
  intros Hl1 Hi. induction Hl1 as [|[k r] l1 Hx Hall IH]; simpl.
  - now rewrite Hi.
  - unfold lists in Hx. simpl in Hx.
    destruct (findIndex sid (players r)); [exfalso; apply Hx; discriminate|].
    now rewrite IH.
Qed.

Lemma disconnect_unlisted (sid : string) (rooms : Rooms) :
  Forall (fun kr => ~ lists sid kr) rooms ->
  disconnect sid rooms = Returned rooms [].
Proof.
  intros H. unfold disconnect. now rewrite leave_first_unlisted.
Qed.

Lemma disconnect_listed (sid id : string) (room : Room) (l1 l2 : Rooms) (i : nat) :
  Forall (fun kr => ~ lists sid kr) l1 ->
  findIndex sid (players room) = Some i ->
  ~ In id (map fst l1) ->
  disconnect sid (l1 ++ (id, room) :: l2)
  = if String.eqb id "" then Returned (l1 ++ (id, without i room) :: l2) []
    else match players (without i room) with
         | [] => Returned (l1 ++ l2) []
         | _ :: _ =>
             Returned (l1 ++ (id, without i room) :: l2)
               [Emit (ToOthers sid (VStr id)) "playerDisconnected" (VStr sid)]
         end.
Proof.
  intros Hl1 Hi Hnin. unfold disconnect.
  rewrite (leave_first_middle _ _ _ _ _ _ Hl1 Hi). fold (without i room).
  simpl truthy. destruct (String.eqb id ""); simpl; [reflexivity|].
  rewrite rooms_find_middle by assumption.
  change (players (without i room)) with (splice1 i (players room)).
  destruct (splice1 i (players room)) eqn:Hps; simpl.
  - now rewrite rooms_delete_middle.
  - reflexivity.
Qed.

Lemma wf_disconnect (sid : string) (rooms : Rooms) :
  wf rooms -> wf (rooms_of (disconnect sid rooms)).
Proof.
  intros Hwf.
  destruct (leave_first sid rooms) as [[id|] rooms'] eqn:Hl.
  - destruct (leave_first_Some _ _ _ _ Hl)
      as (l1 & room & l2 & i & -> & Hl1 & Hi & _).
    destruct Hwf as (Hnd & Hs & Hinh).
    assert (Hkeys : forall r', map fst (l1 ++ (id, r') :: l2)
                               = map fst (l1 ++ (id, room) :: l2))
      by (intros r'; now rewrite !map_app).
    assert (Hnin : ~ In id (map fst l1)).
    { rewrite map_app in Hnd. simpl in Hnd. apply NoDup_remove_2 in Hnd.
      rewrite in_app_iff in Hnd. tauto. }
    assert (Hnd' : NoDup (map fst (l1 ++ l2))).
    { rewrite map_app in *. simpl in Hnd. now apply NoDup_remove_1 in Hnd. }
    apply Forall_app in Hs. destruct Hs as [Hs1 Hs2].
    apply Forall_app in Hinh. destruct Hinh as [Hi1 Hi2].
    inversion Hs2 as [|? ? (Hid & Hok & Hgs & Hlen) Hs2']; subst.
    inversion Hi2 as [|? ? Hroom Hi2']; subst.
    simpl in Hid, Hok, Hgs, Hlen.
    assert (Hsound : room_sound (id, without i room)).
    { unfold room_sound. simpl. repeat split; auto.
      - now apply splice1_ok.
      - pose proof (splice1_length i (players room)). lia. }
    rewrite (disconnect_listed _ _ _ _ _ _ Hl1 Hi Hnin).
    destruct (String.eqb id "") eqn:E.
    + apply String.eqb_eq in E. cbn [rooms_of]. repeat split.
      * now rewrite Hkeys.
      * apply Forall_app. split; [assumption|]. constructor; assumption.
      * apply Forall_app. split; [assumption|]. constructor; [|assumption].
        unfold room_inhabited. simpl. tauto.
    + destruct (players (without i room)) eqn:Hps; cbn [rooms_of].
      * repeat split; [assumption| |]; apply Forall_app; auto.
      * repeat split.
        -- now rewrite Hkeys.
        -- apply Forall_app. split; [assumption|]. constructor; assumption.
        -- apply Forall_app. split; [assumption|]. constructor; [|assumption].
           unfold room_inhabited. cbn [fst snd]. rewrite Hps. discriminate.
  - destruct (leave_first_None _ _ _ Hl) as [-> Hall].
    now rewrite disconnect_unlisted.
Qed.

(** Every table the server can reach is well formed. *)
Lemma reachable_wf (rooms : Rooms) : reachable rooms -> wf rooms.
Proof.
  induction 1 as [|rooms sid ev Hr IH].
  - repeat split; constructor.
  - destruct ev; simpl.
    + now apply wf_createRoom.
    + now apply wf_joinRoom.
    + now apply wf_set_base_position.
    + now apply wf_player_ready.
    + now rewrite update_block_rooms.
    + now rewrite tower_collapsed_rooms.
    + now apply wf_disconnect.
Qed.

(** ** Readiness and game start *)

Lemma after_ready_sockets (sid : string) (room : Room) :
  map socket (players (after_ready sid room)) = map socket (players room).
Proof.
  unfold after_ready. destruct (find_player sid (players room)); [|reflexivity].
  apply set_player_prop_sockets.
Qed.

Lemma ready_flag_true (p : player) :
  player_ok p -> (ready_of p = true <-> obj_get (playerData p) "ready" = VBool true).
Proof.
  intros [_ [b Hb]]. unfold ready_of. rewrite Hb. simpl.
  split; intros H; [now subst|now injection H].
Qed.

Lemma allReady_spec (room : Room) :
  Forall player_ok (players room) ->
  (allReady room = true <->
   forall p, In p (players room) -> obj_get (playerData p) "ready" = VBool true).
Proof.
  intros Hok. unfold allReady. rewrite forallb_forall.
  rewrite Forall_forall in Hok.
  split; intros H p Hp; apply (ready_flag_true p (Hok p Hp)), H, Hp.
Qed.

(** C1 (amended).  A player-ready event for a live session with at least
    one participant marks the sender's entry (if it has one) and then
    evaluates allReady on the room as it now is: the game starts exactly
    when every participant's ready flag is true, whatever their number, and
    then start-game is followed by a turn-update naming the connection of
    [players[0]]; otherwise nothing is emitted. *)
Theorem player_ready_starts_game (rooms : Rooms) (sid : string)
    (payload rid : value) (room : Room) :
  reachable rooms ->
  member payload "roomId" = Some rid ->
  rooms_get rid rooms = Some room ->
  players room <> [] ->
  exists first rest,
    players (after_ready sid room) = first :: rest /\
    rooms_get rid (rooms_of (player_ready sid payload rooms))
      = Some (after_ready sid room) /\
    (allReady (after_ready sid room) = true <->
     forall p, In p (players (after_ready sid room)) ->
               obj_get (playerData p) "ready" = VBool true) /\
    player_ready sid payload rooms
    = Returned (rooms_store rid (after_ready sid room) rooms)
        (if allReady (after_ready sid room)
         then [Emit (ToRoom rid) "start-game" (VObj []);
               Emit (ToRoom rid) "turn-update"
                 (VObj [("currentTurn", VStr (socket first)); ("roomId", rid)])]
         else []).
Proof.
  intros Hreach Hm Hget Hne.
  apply reachable_wf in Hreach.
  destruct (rooms_get_Some _ _ _ Hget) as (k & -> & Hfind).
  destruct (wf_find _ _ _ Hreach Hfind) as [Hs Hi].
  destruct (after_ready_ok sid k room Hs Hi) as [(Hid & Hok & Hgs & Hlen) _].
  simpl in Hid, Hok, Hgs, Hlen.
  destruct (players (after_ready sid room)) as [|first rest] eqn:Hps.
  { pose proof (after_ready_sockets sid room) as Hsock.
    rewrite Hps in Hsock. destruct (players room); [tauto|discriminate]. }
  exists first, rest. split; [reflexivity|]. split; [|split].
  - rewrite (player_ready_rooms _ _ _ _ _ Hm Hget). simpl.
    apply rooms_find_set_same.
  - rewrite <- Hps. apply allReady_spec. now rewrite Hps.
  - unfold player_ready. rewrite Hm, Hget. fold (after_ready sid room).
    destruct (allReady (after_ready sid room)); [|reflexivity].
    rewrite Hps, Hgs. inversion Hok as [|? ? [Hname _] _]; subst.
    unfold name_of in Hname. now rewrite Hname.
Qed.

(** ** Object updates and turn rotation *)

(** What a successful update-block call is: the room exists, the sender
    has an entry with a base position, the payload has the fields
    [relativeChange] reads, and the output is the relative change followed
    by the turn of the entry after the sender's first one. *)
Lemma update_block_succeeded (sid : string) (payload : value) (rooms : Rooms) :
  succeeded (update_block sid payload rooms) = true ->
  exists rid blockData room p change i next,
    member payload "roomId" = Some rid /\
    member payload "blockData" = Some blockData /\
    rooms_get rid rooms = Some room /\
    find_player sid (players room) = Some p /\
    truthy (obj_get (playerData p) "basePosition") = true /\
    relativeChange blockData (obj_get (playerData p) "basePosition") = Some change /\
    findIndex sid (players room) = Some i /\
    nth_error (players room) ((i + 1) mod List.length (players room)) = Some next /\
    update_block sid payload rooms
    = Returned rooms
        [Emit (ToRoom rid) "update-block"
           (VObj [("roomId", rid); ("blockData", change)]);
         Emit (ToRoom rid) "turn-update"
           (VObj [("currentTurn", name_of next); ("roomId", rid)])].
Proof.
  unfold update_block.
  destruct (member payload "roomId") as [rid|] eqn:Hrid; [|discriminate].
  destruct (member payload "blockData") as [blockData|] eqn:Hbd; [|discriminate].
  destruct (rooms_get rid rooms) as [room|] eqn:Hget;
    [|destruct (ToString rid); discriminate].
  destruct (find_player sid (players room)) as [p|] eqn:Hp; [|discriminate].
  destruct (truthy (obj_get (playerData p) "basePosition")) eqn:Hbase;
    [|discriminate]. simpl negb. cbv iota.
  destruct (relativeChange blockData _) as [change|] eqn:Hch;
    [|discriminate].
  destruct (findIndex sid (players room)) as [i|] eqn:Hi.
  - destruct (nth_error (players room) _) as [next|] eqn:Hnext; [|discriminate].
    intros _. exists rid, blockData, room, p, change, i, next. repeat split; auto.
  - apply find_player_findIndex in Hi. congruence.
Qed.

Lemma announced_app (k : string) (out1 out2 : list action) :
  announced k (out1 ++ out2)
  = match announced k out2 with
    | Some t => Some t
    | None => announced k out1
    end.
Proof.
  induction out1 as [|a out1 IH]; simpl.
  - now destruct (announced k out2).
  - rewrite IH. now destruct (announced k out2).
Qed.

Lemma run_app (t1 t2 : list (string * event)) (rooms : Rooms) :
  run (t1 ++ t2) rooms
  = match run t1 rooms with
    | Returned rooms1 out1 =>
        match run t2 rooms1 with
        | Returned rooms2 out2 => Returned rooms2 (out1 ++ out2)
        | Threw rooms2 out2 => Threw rooms2 (out1 ++ out2)
        end
    | Threw rooms1 out1 => Threw rooms1 out1
    end.
Proof.
  revert rooms. induction t1 as [|[sid ev] t1 IH]; intros rooms; simpl.
  - now destruct (run t2 rooms).
  - destruct (handle sid ev rooms) as [rooms1 out1|rooms1 out1]; [|reflexivity].
    rewrite IH. destruct (run t1 rooms1) as [rooms2 out2|rooms2 out2];
      [|reflexivity].
    destruct (run t2 rooms2); now rewrite app_assoc.
Qed.

Lemma reachable_run (trace : list (string * event)) (rooms : Rooms) :
  reachable rooms -> reachable (rooms_of (run trace rooms)).
Proof.
  revert rooms. induction trace as [|[sid ev] trace IH]; intros rooms Hr; simpl.
  - assumption.
  - pose proof (reach_step _ _ rooms sid ev Hr) as Hstep.
    destruct (handle sid ev rooms) as [rooms1 out1|rooms1 out1]; simpl in *.
    + specialize (IH rooms1 Hstep).
      destruct (run trace rooms1); assumption.
    + assumption.
Qed.

Lemma run_updates (calls : list (string * value)) (rooms : Rooms) :
  Forall (fun c => succeeded (update_block (fst c) (snd c) rooms) = true) calls ->
  exists out, run (updates calls) rooms = Returned rooms out.
Proof.
  induction 1 as [|[sid payload] calls Hc Hall [out IH]]; simpl.
  - eauto.
  - simpl in Hc.
    destruct (update_block_succeeded _ _ _ Hc)
      as (rid & bd & room & p & ch & i & next & _ & _ & _ & _ & _ & _ & _ & _ & ->).
    rewrite IH. eauto.
Qed.

Lemma parity_step (n : nat) :
  (n mod 2 = 0 /\ (n + 1) mod 2 = 1) \/ (n mod 2 = 1 /\ (n + 1) mod 2 = 0).
Proof.
  induction n as [|n IH].
  - left. split; reflexivity.
  - replace (S n + 1) with (n + 1 + 1) by lia.
    replace (S n) with (n + 1) by lia.
    rewrite <- (Nat.Div0.add_mod_idemp_l (n + 1) 1 2).
    destruct IH as [[H0 H1]|[H0 H1]]; rewrite H1; [right|left]; split;
      reflexivity.
Qed.

(** C3 (amended).  In a session of two participants, each successful
    update-block call announces the participant after the sender,
    [players[(indexOf(sender) + 1) mod 2]], whoever was announced before and
    whoever sent the earlier calls.  So after k successful calls the
    announced participant is [players[k mod 2]] when the k-th call came from
    [players[(k - 1) mod 2]], as it does when the participants move in
    turn. *)
Theorem turn_follows_last_sender (rooms : Rooms) (k : string) (room : Room)
    (p0 p1 : player) (calls : list (string * value)) (sid : string)
    (payload : value) (i : nat) :
  reachable rooms ->
  rooms_find k rooms = Some room ->
  players room = [p0; p1] ->
  Forall (fun c => member (snd c) "roomId" = Some (VStr k) /\
                   succeeded (update_block (fst c) (snd c) rooms) = true) calls ->
  member payload "roomId" = Some (VStr k) ->
  succeeded (update_block sid payload rooms) = true ->
  findIndex sid [p0; p1] = Some i ->
  threw (run (updates (calls ++ [(sid, payload)])) rooms) = false /\
  rooms_of (run (updates (calls ++ [(sid, payload)])) rooms) = rooms /\
  announced k (out_of (run (updates (calls ++ [(sid, payload)])) rooms))
  = Some (VStr (socket (nth ((i + 1) mod 2) [p0; p1] p0))) /\
  (sid = socket (nth (List.length calls mod 2) [p0; p1] p0) ->
   announced k (out_of (run (updates (calls ++ [(sid, payload)])) rooms))
   = Some (VStr (socket (nth ((List.length calls + 1) mod 2) [p0; p1] p0)))).
Proof.
  intros Hreach Hfind Hps Hcalls Hrid Hok Hi.
  apply reachable_wf in Hreach.
  destruct (wf_find _ _ _ Hreach Hfind) as [(_ & Hpok & _ & _) _].
  simpl in Hpok. rewrite Hps in Hpok.
  assert (Hn0 : name_of p0 = VStr (socket p0))
    by (inversion Hpok as [|? ? [H _] _]; exact H).
  assert (Hn1 : name_of p1 = VStr (socket p1)).
  { inversion Hpok as [|? ? _ Hrest]; subst.
    inversion Hrest as [|? ? [H _] _]; exact H. }
  assert (Hpre : exists out, run (updates calls) rooms = Returned rooms out).
  { apply run_updates. eapply Forall_impl; [|exact Hcalls]. simpl. tauto. }
  destruct Hpre as [out Hpre].
  destruct (update_block_succeeded _ _ _ Hok)
    as (rid & bd & room' & p & ch & j & next & Hrid' & _ & Hget & _ & _ & _
        & Hj & Hnext & Hout).
  assert (rid = VStr k) by congruence. subst rid.
  simpl in Hget. assert (room' = room) by congruence. subst room'.
  rewrite Hps in Hj, Hnext. assert (j = i) by congruence. subst j.
  simpl List.length in Hnext.
  assert (Hrun : run (updates (calls ++ [(sid, payload)])) rooms
                 = Returned rooms
                     (out ++ [Emit (ToRoom (VStr k)) "update-block"
                                (VObj [("roomId", VStr k); ("blockData", ch)]);
                              Emit (ToRoom (VStr k)) "turn-update"
                                (VObj [("currentTurn", name_of next);
                                       ("roomId", VStr k)])])).
  { unfold updates. rewrite map_app, run_app. fold (updates calls).
    rewrite Hpre. simpl. rewrite Hout. reflexivity. }
  assert (Hann : announced k (out_of (run (updates (calls ++ [(sid, payload)])) rooms))
                 = Some (name_of next)).
  { rewrite Hrun. simpl out_of. rewrite announced_app. simpl.
    rewrite String.eqb_refl. reflexivity. }
  assert (Hi2 : i < 2) by (apply findIndex_lt in Hi; exact Hi).
  assert (Hnext' : name_of next = VStr (socket (nth ((i + 1) mod 2) [p0; p1] p0))).
  { destruct i as [|[|i]]; [| |lia]; simpl in Hnext |- *;
      injection Hnext as <-; assumption. }
  rewrite Hrun at 1 2. simpl threw. simpl rooms_of.
  split; [reflexivity|]. split; [reflexivity|].
  split; [now rewrite Hann, Hnext'|].
  intros Hsid. rewrite Hann, Hnext'. do 2 f_equal.
  simpl in Hi.
  destruct (parity_step (List.length calls)) as [[H0 H1]|[H0 H1]];
    rewrite H0 in Hsid; rewrite H1; simpl in Hsid.
  - subst sid. rewrite String.eqb_refl in Hi. now injection Hi as <-.
  - destruct (String.eqb (socket p0) sid) eqn:E0.
    + injection Hi as <-. simpl. apply String.eqb_eq in E0. congruence.
    + subst sid. rewrite String.eqb_refl in Hi. now injection Hi as <-.
Qed.

Lemma next_player_exists (sid : string) (ps : list player) (i : nat) :
  findIndex sid ps = Some i ->
  exists next, nth_error ps ((i + 1) mod List.length ps) = Some next.
Proof.
  intros Hi. apply findIndex_lt in Hi.
  destruct (nth_error ps ((i + 1) mod List.length ps)) as [next|] eqn:E; [eauto|].
  apply nth_error_None in E.
  pose proof (Nat.mod_upper_bound (i + 1) (List.length ps)). lia.
Qed.

Lemma member_some_truthy (v w : value) (k : string) :
  member v k = Some w -> w <> VUndefined -> truthy v = true.
Proof.
  destruct v; simpl; intros H Hw; try reflexivity; try discriminate;
    injection H as <-; exfalso; now apply Hw.
Qed.

(** C8.  When a participant whose base position has the numeric
    coordinates (bx, by, bz) sends an update-block whose position has the
    numeric coordinates (px, py, pz), the update broadcast to the room
    carries the relative position (px - bx, py - by, pz - bz), each
    component being the language's subtraction on numbers. *)
Theorem relative_position_is_subtraction (rooms : Rooms) (sid : string)
    (payload rid blockData position : value) (room : Room) (p : player)
    (bx by_ bz px py pz : float) :
  member payload "roomId" = Some rid ->
  member payload "blockData" = Some blockData ->
  rooms_get rid rooms = Some room ->
  find_player sid (players room) = Some p ->
  member (obj_get (playerData p) "basePosition") "x" = Some (VNum bx) ->
  member (obj_get (playerData p) "basePosition") "y" = Some (VNum by_) ->
  member (obj_get (playerData p) "basePosition") "z" = Some (VNum bz) ->
  member blockData "position" = Some position ->
  member position "x" = Some (VNum px) ->
  member position "y" = Some (VNum py) ->
  member position "z" = Some (VNum pz) ->
  exists id quaternion turn,
    update_block sid payload rooms
    = Returned rooms
        [Emit (ToRoom rid) "update-block"
           (VObj [("roomId", rid);
                  ("blockData",
                   VObj [("id", id);
                         ("relativePosition",
                          VObj [("x", VNum (px - bx)%float);
                                ("y", VNum (py - by_)%float);
                                ("z", VNum (pz - bz)%float)]);
                         ("quaternion", quaternion)])]);
         turn].
Proof.
  intros Hrid Hbd Hget Hp Hbx Hby Hbz Hpos Hpx Hpy Hpz.
  assert (Hbase : truthy (obj_get (playerData p) "basePosition") = true)
    by (eapply member_some_truthy; [exact Hbx|discriminate]).
  assert (Hblock : exists id q, member blockData "id" = Some id /\
                                member blockData "quaternion" = Some q).
  { destruct blockData; try discriminate; simpl; eauto. }
  destruct Hblock as (id & q & Hid & Hq).
  destruct (findIndex sid (players room)) as [i|] eqn:Hi;
    [|apply find_player_findIndex in Hi; congruence].
  destruct (next_player_exists _ _ _ Hi) as [next Hnext].
  exists id, q. eexists.
  unfold update_block. rewrite Hrid, Hbd, Hget, Hp, Hbase. simpl negb. cbv iota.
  unfold relativeChange. rewrite Hid, Hpos, Hpx, Hpy, Hpz, Hbx, Hby, Hbz, Hq.
  simpl. rewrite Hi, Hnext. reflexivity.
Qed.

(** C2: no call of update-block changes the room table, so nothing it
    computes is kept (see [update_block_rooms]); in particular every room
    the server can reach still has the game state it was created with. *)
Lemma game_state_stays_empty (rooms : Rooms) (k : string) (room : Room) :
  reachable rooms -> rooms_find k rooms = Some room ->
  gameState room = empty_obj.
Proof.
  intros Hreach Hfind. apply reachable_wf in Hreach.
  now destruct (wf_find _ _ _ Hreach Hfind) as [(_ & _ & Hgs & _) _].
Qed.

(** ** Failures and malformed payloads *)

Lemma member_of_object (payload : value) (k : string) :
  nullish payload = false -> exists v, member payload k = Some v.
Proof. destruct payload; simpl; intros H; try discriminate; eauto. Qed.

(** An unknown room id, or none at all: every handler that takes one
    stops at the lookup; update-block goes on to log the id. *)
Lemma room_not_found (rooms : Rooms) (sid : string) (payload rid : value) :
  nullish payload = false ->
  member payload "roomId" = Some rid ->
  rooms_get rid rooms = None ->
  joinRoom sid payload rooms = Returned rooms [roomError sid "Room not found"] /\
  set_base_position sid payload rooms
    = Returned rooms [roomError sid "Room not found"] /\
  player_ready sid payload rooms = Returned rooms [roomError sid "Room not found"] /\
  tower_collapsed sid payload rooms
    = Returned rooms [roomError sid "Room not found"] /\
  update_block sid payload rooms
  = match ToString rid with
    | Some _ => Returned rooms []
    | None => Threw rooms []
    end.
Proof.
  intros Hobj Hrid Hget.
  destruct (member_of_object payload "playerData" Hobj) as [v1 H1].
  destruct (member_of_object payload "position" Hobj) as [v2 H2].
  destruct (member_of_object payload "playerId" Hobj) as [v3 H3].
  destruct (member_of_object payload "blockData" Hobj) as [v4 H4].
  unfold joinRoom, set_base_position, player_ready, tower_collapsed, update_block.
  rewrite Hrid, H1, H2, H3, H4, Hget. repeat split; reflexivity.
Qed.



(** C5 (amended).  A join that fails with NotFound or Full, and a
    set-base-position, player-ready or tower-collapsed that fails with
    NotFound, send exactly one roomError to the originating connection,
    emit nothing else and leave the room table as it was.  An update-block
    from a connection that is no participant of the room, or whose entry has
    no base position, and a set-base-position from a non-participant, emit
    nothing at all (no error to the sender, no broadcast) and leave the
    room table as it was. *)
Theorem failures_are_unicast_or_silent (rooms : Rooms) (sid : string)
    (payload rid : value) :
  nullish payload = false ->
  member payload "roomId" = Some rid ->
  (rooms_get rid rooms = None ->
   joinRoom sid payload rooms = Returned rooms [roomError sid "Room not found"] /\
   set_base_position sid payload rooms
     = Returned rooms [roomError sid "Room not found"] /\
   player_ready sid payload rooms
     = Returned rooms [roomError sid "Room not found"] /\
   tower_collapsed sid payload rooms
     = Returned rooms [roomError sid "Room not found"]) /\
  (forall room,
     rooms_get rid rooms = Some room -> isFull room = true ->
     joinRoom sid payload rooms = Returned rooms [roomError sid "Room is full"]) /\
  (forall room,
     rooms_get rid rooms = Some room ->
     find_player sid (players room) = None ->
     update_block sid payload rooms = Returned rooms [] /\
     set_base_position sid payload rooms = Returned rooms []) /\
  (forall room p,
     rooms_get rid rooms = Some room ->
     find_player sid (players room) = Some p ->
     truthy (obj_get (playerData p) "basePosition") = false ->
     update_block sid payload rooms = Returned rooms []).
Proof.
  intros Hobj Hrid.
  destruct (member_of_object payload "playerData" Hobj) as [v1 H1].
  destruct (member_of_object payload "position" Hobj) as [v2 H2].
  destruct (member_of_object payload "blockData" Hobj) as [v4 H4].
  split; [|split; [|split]].
  - intros Hget.
    destruct (room_not_found rooms sid payload rid Hobj Hrid Hget)
      as (Hj & Hs & Hr & Ht & _). auto.
  - intros room Hget Hfull. unfold joinRoom.
    now rewrite Hrid, H1, Hget, Hfull.
  - intros room Hget Hp. unfold update_block, set_base_position.
    now rewrite Hrid, H2, H4, Hget, Hp.
  - intros room p Hget Hp Hbase. unfold update_block.
    now rewrite Hrid, H4, Hget, Hp, Hbase.
Qed.

(** ** Creating, joining and leaving sessions *)

(** C6 (amended).  createRoom registers the new session, with the creator
    as its only participant, under whatever identifier the generator
    returned, without comparing it with the live identifiers.  Sessions
    registered under other identifiers stay registered unchanged, and when
    the identifier is not live the table is the old one with the new
    session added at its end. *)
Theorem createRoom_registers_under_generated_id (rooms : Rooms)
    (fresh sid : string) (payload : value) :
  payload <> VNull ->
  exists room p,
    createRoom fresh sid payload rooms
    = Returned (rooms_set fresh room rooms)
        [Join sid (VStr fresh); Emit (ToSender sid) "roomCreated" (VStr fresh)] /\
    roomId room = fresh /\
    players room = [p] /\
    socket p = sid /\
    rooms_find fresh (rooms_set fresh room rooms) = Some room /\
    (forall k, k <> fresh ->
               rooms_find k (rooms_set fresh room rooms) = rooms_find k rooms) /\
    (rooms_find fresh rooms = None ->
     rooms_set fresh room rooms = rooms ++ [(fresh, room)]).
Proof.
  intros Hnull. unfold createRoom.
  destruct (addPlayer sid (default_empty payload) (new_Room fresh))
    as [room|] eqn:Hadd.
  - destruct (addPlayer_some _ _ _ _ Hadd)
      as (p & r & _ & Hps & Hsock & _ & _ & Hid & _).
    exists room, p. simpl in Hps, Hid. repeat split; auto.
    + apply rooms_find_set_same.
    + intros k Hk. now apply rooms_find_set_other.
    + apply rooms_set_fresh.
  - apply addPlayer_none in Hadd. destruct payload; try discriminate.
    now contradiction Hnull.
Qed.

Lemma findIndex_split (sid : string) (ps : list player) (i : nat) :
  findIndex sid ps = Some i ->
  exists before p after,
    ps = before ++ p :: after /\
    List.length before = i /\
    socket p = sid /\
    Forall (fun q => socket q <> sid) before.
Proof.
  revert i. induction ps as [|q ps IH]; simpl; intros i H; [discriminate|].
  destruct (String.eqb (socket q) sid) eqn:E.
  - injection H as <-. apply String.eqb_eq in E.
    exists [], q, ps. repeat split; auto.
  - destruct (findIndex sid ps) as [j|]; [|discriminate]. injection H as <-.
    destruct (IH j eq_refl) as (before & p & after & -> & Hlen & Hs & Hall).
    exists (q :: before), p, after. simpl. repeat split; auto.
    constructor; [|assumption]. now apply String.eqb_neq.
Qed.


(** C10.  joinRoom looks only at the room's size.  A connection that is
    the single participant of a room and sends joinRoom for that room is
    added a second time: the join succeeds, the participant list holds two
    entries with the same connection id, and the room is full. *)
Theorem join_does_not_check_membership (rooms : Rooms) (sid k : string)
    (room : Room) (p : player) (payload data : value) :
  rooms_find k rooms = Some room ->
  players room = [p] ->
  socket p = sid ->
  member payload "roomId" = Some (VStr k) ->
  member payload "playerData" = Some data ->
  data <> VNull ->
  exists room' p' joined,
    joinRoom sid payload rooms
    = Returned (rooms_set k room' rooms)
        [Join sid (VStr k);
         Emit (ToSender sid) "joinedRoom"
           (VObj [("roomId", VStr k); ("state", getState room')]);
         Emit (ToOthers sid (VStr k)) "playerJoined" joined] /\
    rooms_find k (rooms_set k room' rooms) = Some room' /\
    players room' = [p; p'] /\
    socket p' = socket p /\
    isFull room' = true.
Proof.
  intros Hfind Hps Hsock Hrid Hdata Hnull. unfold joinRoom.
  rewrite Hrid, Hdata. simpl rooms_get. rewrite Hfind.
  unfold isFull at 1. rewrite Hps. simpl Nat.leb. cbv iota.
  destruct (addPlayer sid (default_empty data) room) as [room'|] eqn:Hadd.
  - destruct (addPlayer_some _ _ _ _ Hadd)
      as (p' & r & _ & Hps' & Hsock' & _ & _ & _ & _).
    rewrite Hps in Hps'. simpl in Hps'.
    exists room', p'. eexists. split; [reflexivity|].
    split; [apply rooms_find_set_same|].
    split; [assumption|]. split; [congruence|].
    unfold isFull. now rewrite Hps'.
  - apply addPlayer_none in Hadd. destruct data; try discriminate.
    now contradiction Hnull.
Qed.

(** ** The ready flag over time *)

Lemma flags_kept_refl (sid : string) (signal : bool) (ps : list player) :
  flags_kept sid signal ps ps.
Proof.
  induction ps as [|p ps IH]; constructor; [|exact IH].
  repeat split; auto; congruence.
Qed.

Lemma flags_kept_base (sid : string) (v : value) (ps : list player) :
  flags_kept sid false ps (set_player_prop sid "basePosition" v ps).
Proof.
  induction ps as [|p ps IH]; simpl; [constructor|].
  destruct (String.eqb (socket p) sid).
  - constructor; [|apply flags_kept_refl].
    unfold ready_of. simpl.
    rewrite obj_get_set_other by discriminate.
    repeat split; auto; congruence.
  - constructor; [|exact IH]. repeat split; auto; congruence.
Qed.

Lemma flags_kept_ready (sid : string) (ps : list player) :
  flags_kept sid true ps (set_player_prop sid "ready" (VBool true) ps).
Proof.
  induction ps as [|p ps IH]; simpl; [constructor|].
  destruct (String.eqb (socket p) sid) eqn:E.
  - apply String.eqb_eq in E. constructor; [|apply flags_kept_refl].
    unfold ready_of. simpl.
    rewrite obj_get_set_same by discriminate. auto.
  - constructor; [|exact IH]. repeat split; auto; congruence.
Qed.

Lemma find_after_store (rooms : Rooms) (rid : value) (k : string)
    (room0 room1 room room' : Room) :
  rooms_get rid rooms = Some room0 ->
  rooms_find k rooms = Some room ->
  rooms_find k (rooms_store rid room1 rooms) = Some room' ->
  room' = room \/ (room0 = room /\ room' = room1).
Proof.
  intros Hget Hfind Hfind'.
  destruct (rooms_get_Some _ _ _ Hget) as (k0 & -> & Hfind0). simpl in Hfind'.
  destruct (string_dec k k0) as [->|Hne].
  - rewrite rooms_find_set_same in Hfind'. right. split; congruence.
  - rewrite rooms_find_set_other in Hfind' by assumption. left. congruence.
Qed.

Lemma rooms_find_skip (k id : string) (r : Room) (l1 l2 : Rooms) :
  k <> id -> rooms_find k (l1 ++ (id, r) :: l2) = rooms_find k (l1 ++ l2).
Proof.
  intros Hne. induction l1 as [|[k' r'] l1 IH]; simpl.
  - destruct (String.eqb id k) eqn:E; [|reflexivity].
    apply String.eqb_eq in E. congruence.
  - now rewrite IH.
Qed.

(** C9 (amended).  A participant enters a session, at create or at join,
    with the ready flag the client's own [playerData.ready] gives it: false
    when none was sent, true when a truthy one was.  After that no event
    resets a flag that is true, and a flag turns true only on an entry of
    the connection that sent player-ready.  Entries are otherwise only
    appended (join) or removed (disconnect). *)
Theorem ready_only_by_own_signal (rooms : Rooms) (sid : string) :
  reachable rooms ->
  (forall fresh payload,
     payload <> VNull ->
     exists room p r,
       rooms_find fresh (rooms_of (createRoom fresh sid payload rooms)) = Some room /\
       players room = [p] /\
       socket p = sid /\
       member (default_empty payload) "ready" = Some r /\
       ready_of p = truthy r) /\
  (forall ev k room room',
     rooms_find k rooms = Some room ->
     rooms_find k (rooms_of (handle sid ev rooms)) = Some room' ->
     match ev with
     | CreateRoom fresh _ => room' = room \/ fresh = k
     | JoinRoom payload =>
         room' = room \/
         exists data r p,
           member payload "playerData" = Some data /\
           member (default_empty data) "ready" = Some r /\
           players room' = players room ++ [p] /\
           socket p = sid /\
           ready_of p = truthy r
     | Disconnect =>
         room' = room \/
         exists before p after,
           players room = before ++ p :: after /\
           socket p = sid /\
           players room' = before ++ after
     | PlayerReady _ => flags_kept sid true (players room) (players room')
     | SetBasePosition _ | UpdateBlock _ | TowerCollapsed _ =>
         flags_kept sid false (players room) (players room')
     end).
Proof.
  intros Hreach. split.
  - intros fresh payload Hnull. unfold createRoom.
    destruct (addPlayer sid (default_empty payload) (new_Room fresh))
      as [room|] eqn:Hadd.
    + destruct (addPlayer_some _ _ _ _ Hadd)
        as (p & r & Hr & Hps & Hsock & _ & Hready & _ & _).
      exists room, p, r. simpl in Hps |- *. repeat split; auto.
      * apply rooms_find_set_same.
      * destruct payload; simpl in *; try exact Hr; now contradiction Hnull.
      * unfold ready_of. now rewrite Hready.
    + apply addPlayer_none in Hadd. destruct payload; try discriminate.
      now contradiction Hnull.
  - intros ev k room room' Hfind Hfind'. destruct ev; simpl in Hfind'.
    + (* createRoom *)
      unfold createRoom in Hfind'.
      destruct (addPlayer sid (default_empty payload) (new_Room fresh));
        simpl in Hfind'; [|left; congruence].
      destruct (string_dec fresh k) as [|Hne]; [now right|left].
      rewrite rooms_find_set_other in Hfind' by congruence. congruence.
    + (* joinRoom *)
      unfold joinRoom in Hfind'.
      destruct (member payload "roomId") as [rid|]; [|left; simpl in *; congruence].
      destruct (member payload "playerData") as [data|] eqn:Hdata;
        [|left; simpl in *; congruence].
      destruct (rooms_get rid rooms) as [room0|] eqn:Hget;
        [|left; simpl in *; congruence].
      destruct (isFull room0); [left; simpl in *; congruence|].
      destruct (addPlayer sid (default_empty data) room0) as [room1|] eqn:Hadd;
        [|left; simpl in *; congruence].
      simpl in Hfind'.
      destruct (find_after_store _ _ _ _ _ _ _ Hget Hfind Hfind')
        as [->|[-> ->]]; [now left|right].
      destruct (addPlayer_some _ _ _ _ Hadd)
        as (p & r & Hr & Hps & Hsock & _ & Hready & _ & _).
      exists data, r, p. repeat split; auto.
      * destruct data; simpl in *; exact Hr.
      * unfold ready_of. now rewrite Hready.
    + (* set-base-position *)
      unfold set_base_position in Hfind'.
      destruct (member payload "roomId") as [rid|];
        [|simpl in *; replace room' with room by congruence; apply flags_kept_refl].
      destruct (member payload "position") as [position|];
        [|simpl in *; replace room' with room by congruence; apply flags_kept_refl].
      destruct (rooms_get rid rooms) as [room0|] eqn:Hget;
        [|simpl in *; replace room' with room by congruence; apply flags_kept_refl].
      destruct (find_player sid (players room0));
        [|simpl in *; replace room' with room by congruence; apply flags_kept_refl].
      simpl in Hfind'.
      destruct (find_after_store _ _ _ _ _ _ _ Hget Hfind Hfind')
        as [->|[-> ->]]; [apply flags_kept_refl|].
      simpl. apply flags_kept_base.
    + (* player-ready *)
      destruct (member payload "roomId") as [rid|] eqn:Hrid;
        [|unfold player_ready in Hfind'; rewrite Hrid in Hfind'; simpl in *;
          replace room' with room by congruence; apply flags_kept_refl].
      destruct (rooms_get rid rooms) as [room0|] eqn:Hget;
        [|unfold player_ready in Hfind'; rewrite Hrid, Hget in Hfind'; simpl in *;
          replace room' with room by congruence; apply flags_kept_refl].
      rewrite (player_ready_rooms _ _ _ _ _ Hrid Hget) in Hfind'.
      destruct (find_after_store _ _ _ _ _ _ _ Hget Hfind Hfind')
        as [->|[-> ->]]; [apply flags_kept_refl|].
      unfold after_ready. destruct (find_player sid (players room));
        [|apply flags_kept_refl].
      simpl. apply flags_kept_ready.
    + (* update-block *)
      rewrite update_block_rooms in Hfind'.
      replace room' with room by congruence. apply flags_kept_refl.
    + (* tower-collapsed *)
      rewrite tower_collapsed_rooms in Hfind'.
      replace room' with room by congruence. apply flags_kept_refl.
    + (* disconnect *)
      apply reachable_wf in Hreach. destruct Hreach as (Hnd & _ & _).
      destruct (leave_first sid rooms) as [[id|] rooms'] eqn:Hl.
      * destruct (leave_first_Some _ _ _ _ Hl)
          as (l1 & room0 & l2 & i & -> & Hl1 & Hi & _).
        rewrite map_app in Hnd. simpl in Hnd.
        pose proof (NoDup_remove_2 _ _ _ Hnd) as Hnin.
        rewrite in_app_iff in Hnin.
        assert (Hnin1 : ~ In id (map fst l1)) by tauto.
        rewrite (disconnect_listed _ _ _ _ _ _ Hl1 Hi Hnin1) in Hfind'.
        destruct (string_dec k id) as [->|Hne].
        -- right. rewrite rooms_find_middle in Hfind by assumption.
           injection Hfind as ->.
           destruct (findIndex_split _ _ _ Hi)
             as (before & p & after & Hps & Hlen & Hs & _).
           exists before, p, after. split; [assumption|]. split; [assumption|].
           assert (Hw : players (without i room) = before ++ after)
             by (unfold without; simpl; rewrite Hps, <- Hlen; apply splice1_app).
           assert (Hgone : rooms_find id (l1 ++ l2) = None)
             by (apply rooms_find_None; rewrite map_app, in_app_iff; tauto).
           destruct (String.eqb id ""); cbn [rooms_of] in Hfind'.
           ++ rewrite rooms_find_middle in Hfind' by assumption. congruence.
           ++ destruct (players (without i room)) eqn:Hps'; cbn [rooms_of] in Hfind'.
              ** congruence.
              ** rewrite rooms_find_middle in Hfind' by assumption.
                 injection Hfind' as <-. now rewrite Hps'.
        -- left. rewrite rooms_find_skip in Hfind by assumption.
           destruct (String.eqb id ""); cbn [rooms_of] in Hfind'.
           ++ rewrite rooms_find_skip in Hfind' by assumption. congruence.
           ++ destruct (players (without i room0)); cbn [rooms_of] in Hfind'.
              ** congruence.
              ** rewrite rooms_find_skip in Hfind' by assumption. congruence.
      * destruct (leave_first_None _ _ _ Hl) as [_ Hall].
        rewrite (disconnect_unlisted _ _ Hall) in Hfind'. cbn [rooms_of] in Hfind'.
        left. congruence.
Qed.

End Properties.

(** ** The properties on concrete runs *)

Local Open Scope list_scope.

Lemma example_reachable (trace : list (string * event)) :
  reachable unused_StringToNumber unused_NumberToString
    (rooms_of (example_run trace [])).
Proof. apply reachable_run, reach_start. Qed.

(** C1, an instance: B's ready signal completes readiness in r1; the game
    starts and the first turn goes to A, the first participant. *)
Lemma player_ready_starts_game_witness :
  out_of (player_ready "B" (for_room "r1" []) rooms_awaiting_B)
  = [Emit (ToRoom (VStr "r1")) "start-game" (VObj []);
     Emit (ToRoom (VStr "r1")) "turn-update"
       (VObj [("currentTurn", VStr "A"); ("roomId", VStr "r1")])].
Proof.
  edestruct (player_ready_starts_game unused_StringToNumber unused_NumberToString
               rooms_awaiting_B "B" (for_room "r1" []) (VStr "r1"))
    as (first & rest & Hps & _ & _ & Hout).
  - apply example_reachable.
  - reflexivity.
  - reflexivity.
  - discriminate.
  - rewrite Hout. vm_compute in Hps. injection Hps as <- <-. reflexivity.
Defined.

(** C1 as stated fails: a session with a single participant starts the
    game as soon as that participant signals ready. *)
Lemma single_participant_starts_game :
  out_of (example_run [("A", CreateRoom "r1" (named "A"));
                       ("A", PlayerReady (for_room "r1" []))] [])
  = [Join "A" (VStr "r1");
     Emit (ToSender "A") "roomCreated" (VStr "r1");
     Emit (ToRoom (VStr "r1")) "start-game" (VObj []);
     Emit (ToRoom (VStr "r1")) "turn-update"
       (VObj [("currentTurn", VStr "A"); ("roomId", VStr "r1")])] /\
  membership (rooms_of (example_run [("A", CreateRoom "r1" (named "A"));
                                     ("A", PlayerReady (for_room "r1" []))] []))
  = [("r1", ["A"])].
Proof. split; reflexivity. Qed.

(** C2, the failing run: A creates r1, calibrates at (1, 2, 3), moves
    block b1 to (4, 6, 8) and signals ready.  The update is broadcast with
    the relative position (3, 4, 5); the room's game state stays empty and
    start-game carries an empty object, although [Room.updateGameState]
    would have stored the block under its id. *)
Lemma update_block_stores_nothing :
  out_of (example_run
            [("A", CreateRoom "r1" (named "A"));
             ("A", SetBasePosition (for_room "r1" [("position", vec3 1 2 3)]));
             ("A", UpdateBlock move_b1);
             ("A", PlayerReady (for_room "r1" []))] [])
  = [Join "A" (VStr "r1");
     Emit (ToSender "A") "roomCreated" (VStr "r1");
     Emit (ToRoom (VStr "r1")) "update-block"
       (VObj [("roomId", VStr "r1");
              ("blockData",
               VObj [("id", VStr "b1");
                     ("relativePosition", vec3 3 4 5);
                     ("quaternion", VNull)])]);
     Emit (ToRoom (VStr "r1")) "turn-update"
       (VObj [("currentTurn", VStr "A"); ("roomId", VStr "r1")]);
     Emit (ToRoom (VStr "r1")) "start-game" (VObj []);
     Emit (ToRoom (VStr "r1")) "turn-update"
       (VObj [("currentTurn", VStr "A"); ("roomId", VStr "r1")])] /\
  map (fun kr => gameState (snd kr))
    (rooms_of (example_run
                 [("A", CreateRoom "r1" (named "A"));
                  ("A", SetBasePosition (for_room "r1" [("position", vec3 1 2 3)]));
                  ("A", UpdateBlock move_b1);
                  ("A", PlayerReady (for_room "r1" []))] []))
  = [empty_obj] /\
  option_map gameState
    (updateGameState unused_NumberToString (block "b1" (vec3 4 6 8)) (new_Room "r1"))
  = Some {| own := [("b1", block "b1" (vec3 4 6 8))]; proto := [] |}.
Proof. repeat split; reflexivity. Qed.

(** C3, an instance: A, B and A again move in turn; after these three
    calls the turn announced is B's, [players[3 mod 2]]. *)
Lemma turn_follows_last_sender_witness :
  announced "r1"
    (out_of (example_run (updates [("A", move_b1); ("B", move_b1); ("A", move_b1)])
               rooms_in_play))
  = Some (VStr "B").
Proof.
  epose proof (turn_follows_last_sender unused_StringToNumber
                 unused_NumberToString rooms_in_play "r1" _ _ _
                 [("A", move_b1); ("B", move_b1)] "A" move_b1 0
                 (example_reachable _) eq_refl eq_refl) as H.
  destruct H as (_ & _ & _ & Hturn).
  - repeat constructor.
  - reflexivity.
  - reflexivity.
  - reflexivity.
  - exact (Hturn eq_refl).
Defined.

(** C3 as stated fails: when A moves twice in a row, two successful calls
    have been made and the turn announced is B's, not that of
    [players[2 mod 2]], which is A. *)
Lemma same_sender_twice_keeps_turn :
  map (fun c => succeeded (example_update_block (fst c) (snd c) rooms_in_play))
    [("A", move_b1); ("A", move_b1)]
  = [true; true] /\
  announced "r1"
    (out_of (example_run (updates [("A", move_b1); ("A", move_b1)]) rooms_in_play))
  = Some (VStr "B") /\
  membership rooms_in_play = [("r1", ["A"; "B"])] /\
  nth_error ["A"; "B"] (2 mod 2) = Some "A".
Proof. repeat split; reflexivity. Qed.



(** C5, an instance: a third connection asking to join the full room r1
    gets "Room is full", and nothing else happens. *)
Lemma failures_are_unicast_or_silent_witness :
  joinRoom "C" (for_room "r1" []) rooms_in_play
  = Returned rooms_in_play [roomError "C" "Room is full"].
Proof.
  destruct (failures_are_unicast_or_silent unused_StringToNumber
              unused_NumberToString rooms_in_play "C" (for_room "r1" [])
              (VStr "r1") eq_refl eq_refl)
    as (_ & Hfull & _ & _).
  eapply Hfull; reflexivity.
Defined.

(** C5 as stated fails: an update-block from B, who has not calibrated,
    and one from C, who is not in the room, send no error to their sender;
    they emit nothing. *)
Lemma failed_update_reports_nothing :
  example_update_block "B" move_b1 rooms_A_calibrated
  = Returned rooms_A_calibrated [] /\
  example_update_block "C" move_b1 rooms_A_calibrated
  = Returned rooms_A_calibrated [].
Proof. split; reflexivity. Qed.

(** C6, an instance: C creates a room while r1 is live and the generator
    returns r2; r1 stays as it was and r2 is added after it. *)
Lemma createRoom_registers_under_generated_id_witness :
  exists room,
    rooms_of (createRoom "r2" "C" (named "C") rooms_in_play)
    = (rooms_in_play ++ [("r2", room)])%list /\
    map socket (players room) = ["C"].
Proof.
  destruct (createRoom_registers_under_generated_id rooms_in_play "r2" "C"
              (named "C"))
    as (room & p & Hcreate & _ & Hps & Hsock & _ & _ & Hfresh).
  - discriminate.
  - exists room. rewrite Hcreate, Hps. simpl. rewrite Hsock.
    split; [|reflexivity]. apply Hfresh. reflexivity.
Defined.

(** C6 as stated fails: when the generator returns an identifier that is
    live, the new session takes the place of the live one.  A's room r1 is
    gone once B's createRoom draws r1 again. *)
Lemma colliding_id_replaces_session :
  membership (rooms_of (example_run [("A", CreateRoom "r1" (named "A"))] []))
  = [("r1", ["A"])] /\
  membership (rooms_of (example_run [("A", CreateRoom "r1" (named "A"));
                                     ("B", CreateRoom "r1" (named "B"))] []))
  = [("r1", ["B"])].
Proof. split; reflexivity. Qed.



(** The order of the table is that in which the ids were first
    registered, not that in which the sessions were created: a session
    created under a live id takes the place of the one it replaces.  C
    creates r1, A creates r2, and A's next createRoom draws r1 again; A's
    room r1, created last, now comes first, and it is the one A's
    disconnect handles. *)
Lemma replaced_session_keeps_its_place :
  membership (rooms_of (example_run [("C", CreateRoom "r1" (named "C"));
                                     ("A", CreateRoom "r2" (named "A"));
                                     ("A", CreateRoom "r1" (named "A"))] []))
  = [("r1", ["A"]); ("r2", ["A"])] /\
  membership (rooms_of (example_run [("C", CreateRoom "r1" (named "C"));
                                     ("A", CreateRoom "r2" (named "A"));
                                     ("A", CreateRoom "r1" (named "A"));
                                     ("A", Disconnect)] []))
  = [("r2", ["A"])].
Proof. split; reflexivity. Qed.

(** C8, an instance: base position (1, 2, 3) and update position
    (4, 6, 8) give the relative position (3, 4, 5). *)
Lemma relative_position_is_subtraction_witness :
  exists id quaternion turn,
    example_update_block "A" move_b1 rooms_in_play
    = Returned rooms_in_play
        [Emit (ToRoom (VStr "r1")) "update-block"
           (VObj [("roomId", VStr "r1");
                  ("blockData",
                   VObj [("id", id);
                         ("relativePosition", vec3 3 4 5);
                         ("quaternion", quaternion)])]);
         turn].
Proof.
  epose proof (relative_position_is_subtraction unused_StringToNumber
                 unused_NumberToString rooms_in_play "A" move_b1 (VStr "r1")
                 (block "b1" (vec3 4 6 8)) (vec3 4 6 8) _ _ 1 2 3 4 6 8
                 eq_refl eq_refl eq_refl eq_refl eq_refl eq_refl eq_refl
                 eq_refl eq_refl eq_refl eq_refl) as H.
  exact H.
Defined.

(** C9, an instance: C creates a room sending [ready: true] and enters
    it with the flag set. *)
Lemma ready_only_by_own_signal_witness :
  exists room p r,
    rooms_find "r2"
      (rooms_of (createRoom "r2" "C" (VObj [("name", VStr "C"); ("ready", VBool true)]) rooms_in_play))
    = Some room /\
    players room = [p] /\
    socket p = "C" /\
    member (default_empty (VObj [("name", VStr "C"); ("ready", VBool true)])) "ready" = Some r /\
    ready_of p = truthy r.
Proof.
  apply (proj1 (ready_only_by_own_signal unused_StringToNumber
                  unused_NumberToString rooms_in_play "C" (example_reachable _))).
  discriminate.
Defined.

(** C9 as stated fails: a creator who sends [ready: true] in its player
    data is ready on entry, without any player-ready signal. *)
Lemma ready_on_entry :
  map (fun kr => map ready_of (players (snd kr)))
    (rooms_of (example_run [("A", CreateRoom "r1" (VObj [("name", VStr "A"); ("ready", VBool true)]))] []))
  = [[true]].
Proof. reflexivity. Qed.

(** C10, an instance: A creates r1 and then joins it. *)
Lemma join_does_not_check_membership_witness :
  exists room',
    rooms_find "r1"
      (rooms_of (joinRoom "A" (for_room "r1" [("playerData", named "A")])
                   (rooms_of (example_run [("A", CreateRoom "r1" (named "A"))] []))))
    = Some room' /\
    map socket (players room') = ["A"; "A"] /\
    isFull room' = true.
Proof.
  epose proof (join_does_not_check_membership
                 (rooms_of (example_run [("A", CreateRoom "r1" (named "A"))] []))
                 "A" "r1" _ _ (for_room "r1" [("playerData", named "A")])
                 (named "A") eq_refl eq_refl eq_refl eq_refl eq_refl) as H.
  destruct H as (room' & p' & joined & Hjoin & Hfind & Hps & Hsock & Hfull).
  - discriminate.
  - exists room'. rewrite Hjoin. unfold rooms_of at 1. rewrite Hfind, Hps. simpl.
    rewrite Hsock. auto.
Defined.

(** The runs above do not depend on the placeholders: whatever the
    runtime's conversions are, the calibrated session is the same and the
    update-block calls of the examples give the same outcomes. *)
Lemma examples_ignore_runtime (StringToNumber : string -> float)
    (NumberToString : float -> string) :
  rooms_of (run StringToNumber NumberToString
              (two_joined ++
               [("A", SetBasePosition (for_room "r1" [("position", vec3 1 2 3)]));
                ("B", SetBasePosition (for_room "r1" [("position", vec3 0 0 0)]));
                ("A", PlayerReady (for_room "r1" []));
                ("B", PlayerReady (for_room "r1" []))]) [])
  = rooms_in_play /\
  run StringToNumber NumberToString
    (updates [("A", move_b1); ("A", move_b1)]) rooms_in_play
  = example_run (updates [("A", move_b1); ("A", move_b1)]) rooms_in_play /\
  update_block StringToNumber NumberToString "A" (for_room "r1" []) rooms_in_play
  = example_update_block "A" (for_room "r1" []) rooms_in_play /\
  update_block StringToNumber NumberToString "B" move_b1 rooms_A_calibrated
  = example_update_block "B" move_b1 rooms_A_calibrated.
Proof. repeat split; reflexivity. Qed.

(** [Object.assign] copies a string by code unit: of the text made of h,
    e with an acute accent (two bytes) and a character outside the Basic
    Multilingual Plane (four bytes) it copies four properties, the last two
    being the halves of the surrogate pair 0xD83D 0xDE00. *)
Lemma own_props_counts_code_units :
  own_props
    (VStr (string_of_list_ascii
             (map ascii_of_nat [104; 195; 169; 240; 159; 152; 128]%nat)))
  = [("0", VStr (string_of_list_ascii (map ascii_of_nat [104]%nat)));
     ("1", VStr (string_of_list_ascii (map ascii_of_nat [195; 169]%nat)));
     ("2", VStr (string_of_list_ascii (map ascii_of_nat [237; 160; 189]%nat)));
     ("3", VStr (string_of_list_ascii (map ascii_of_nat [237; 184; 128]%nat)))].
Proof. reflexivity. Qed.

(** * Further properties of the handlers

    What the handlers keep and do beyond the points above: bounds on the
    room table, the effect of calibration, collapse and departure, and the
    cases in which a handler raises. *)

Section Further.

Variable StringToNumber : string -> float.
Variable NumberToString : float -> string.

Local Abbreviation handle := (handle StringToNumber NumberToString).
Local Abbreviation run := (run StringToNumber NumberToString).
Local Abbreviation update_block := (update_block StringToNumber NumberToString).
Local Abbreviation tower_collapsed := (tower_collapsed NumberToString).
Local Abbreviation relativeChange := (relativeChange StringToNumber NumberToString).
Local Abbreviation reachable := (reachable StringToNumber NumberToString).
Local Abbreviation reachable_wf := (reachable_wf StringToNumber NumberToString).
Local Abbreviation room_not_found := (room_not_found StringToNumber NumberToString).
Local Abbreviation disconnect_listed :=
  (disconnect_listed StringToNumber NumberToString).
Local Abbreviation rooms_find_None := (rooms_find_None StringToNumber NumberToString).
Local Abbreviation rooms_find_middle :=
  (rooms_find_middle StringToNumber NumberToString).
Local Abbreviation rooms_delete_middle :=
  (rooms_delete_middle StringToNumber NumberToString).
Local Abbreviation find_player_findIndex :=
  (find_player_findIndex StringToNumber NumberToString).

(** ** Bounds and server-side identity *)

(** X1.  Whatever the clients send, a registered room never holds more
    than two participants, a room whose id is not the empty string never
    stays registered without a participant, and a room is registered under
    its own id. *)
Theorem room_size_stays_within_bounds (rooms : Rooms) (k : string) (room : Room) :
  reachable rooms ->
  rooms_find k rooms = Some room ->
  List.length (players room) <= 2 /\
  (k <> "" -> 1 <= List.length (players room)) /\
  roomId room = k.
Proof.
  intros Hreach Hfind. apply reachable_wf in Hreach.
  destruct (wf_find _ _ _ Hreach Hfind) as [(Hid & _ & _ & Hlen) Hinh].
  simpl in *. repeat split; auto.
  intros Hk. specialize (Hinh Hk).
  destruct (players room) eqn:E; simpl; [now contradiction Hinh|lia].
Qed.

(** X2.  The name and the ready flag of a participant are the server's:
    in every room the server can reach, each participant's [name] is the id
    of the socket it came in on and its [ready] is a boolean, whatever
    [name] and [ready] the client sent in its player data. *)
Theorem names_are_server_side (rooms : Rooms) (k : string) (room : Room)
    (p : player) :
  reachable rooms ->
  rooms_find k rooms = Some room ->
  In p (players room) ->
  obj_get (playerData p) "name" = VStr (socket p) /\
  (obj_get (playerData p) "ready" = VBool true \/
   obj_get (playerData p) "ready" = VBool false).
Proof.
  intros Hreach Hfind Hin. apply reachable_wf in Hreach.
  destruct (wf_find _ _ _ Hreach Hfind) as [(_ & Hok & _ & _) _].
  simpl in Hok. rewrite Forall_forall in Hok.
  destruct (Hok p Hin) as [Hname [[|] Hb]]; auto.
Qed.


(** ** Departure *)

Lemma rooms_set_same (k : string) (room : Room) (rooms : Rooms) :
  rooms_find k rooms = Some room -> rooms_set k room rooms = rooms.
Proof.
  induction rooms as [|[k' r'] rooms IH]; simpl; [discriminate|].
  destruct (String.eqb k' k) eqn:E; intros H.
  - apply String.eqb_eq in E. congruence.
  - now rewrite IH.
Qed.

(** The keys of the table: [rooms.set] and the departure loop remove none,
    [rooms.delete] only its own. *)
Lemma rooms_set_keeps (k x : string) (r : Room) (rooms : Rooms) :
  In x (map fst rooms) -> In x (map fst (rooms_set k r rooms)).
Proof.
  induction rooms as [|[k' r'] rooms IH]; simpl; [contradiction|].
  destruct (String.eqb k' k) eqn:E; simpl.
  - apply String.eqb_eq in E. subst k'. auto.
  - intros [H|H]; auto.
Qed.

Lemma rooms_store_keeps (rid : value) (x : string) (r : Room) (rooms : Rooms) :
  In x (map fst rooms) -> In x (map fst (rooms_store rid r rooms)).
Proof. destruct rid; simpl; auto. apply rooms_set_keeps. Qed.

Lemma rooms_delete_keeps (k x : string) (rooms : Rooms) :
  x <> k -> In x (map fst rooms) -> In x (map fst (rooms_delete k rooms)).
Proof.
  intros Hne. induction rooms as [|[k' r'] rooms IH]; simpl; [contradiction|].
  destruct (String.eqb k' k) eqn:E; simpl.
  - apply String.eqb_eq in E. subst k'. intros [H|H]; [congruence|assumption].
  - intros [H|H]; auto.
Qed.

Lemma leave_first_keys (sid : string) (rooms : Rooms) :
  map fst (snd (leave_first sid rooms)) = map fst rooms.
Proof.
  induction rooms as [|[k r] rooms IH]; simpl; [reflexivity|].
  destruct (findIndex sid (players r)); [reflexivity|].
  destruct (leave_first sid rooms) as [found rest]. simpl in *. now rewrite IH.
Qed.

Lemma empty_id_stays (rooms : Rooms) (sid : string) (ev : event) :
  In "" (map fst rooms) -> In "" (map fst (rooms_of (handle sid ev rooms))).
Proof.
  intros Hin.
  destruct ev as [fresh payload|payload|payload|payload|payload|payload|];
    simpl handle.
  - unfold createRoom. break_match; simpl; [now apply rooms_set_keeps|assumption].
  - unfold joinRoom. repeat break_match; simpl; try assumption.
    now apply rooms_store_keeps.
  - unfold set_base_position. repeat break_match; simpl; try assumption.
    now apply rooms_store_keeps.
  - destruct (member payload "roomId") as [rid|] eqn:Hrid;
      [|unfold player_ready; now rewrite Hrid].
    destruct (rooms_get rid rooms) as [room|] eqn:Hget;
      [|unfold player_ready; now rewrite Hrid, Hget].
    rewrite (player_ready_rooms _ _ _ _ _ Hrid Hget). now apply rooms_store_keeps.
  - now rewrite update_block_rooms.
  - now rewrite tower_collapsed_rooms.
  - unfold disconnect. pose proof (leave_first_keys sid rooms) as Hkeys.
    destruct (leave_first sid rooms) as [[id|] rooms']; simpl in Hkeys;
      [|simpl; now rewrite Hkeys].
    simpl truthy. destruct (String.eqb id "") eqn:E; simpl;
      [now rewrite Hkeys|].
    apply String.eqb_neq in E.
    destruct (rooms_find id rooms') as [room|]; [|simpl; now rewrite Hkeys].
    destruct (List.length (players room) =? 0)%nat; simpl;
      [|now rewrite Hkeys].
    apply rooms_delete_keeps; [congruence|now rewrite Hkeys].
Qed.

Lemma empty_id_stays_run (trace : list (string * event)) (rooms : Rooms) :
  In "" (map fst rooms) -> In "" (map fst (rooms_of (run trace rooms))).
Proof.
  revert rooms. induction trace as [|[sid ev] trace IH]; intros rooms Hin; simpl.
  - assumption.
  - pose proof (empty_id_stays rooms sid ev Hin) as Hstep.
    destruct (handle sid ev rooms) as [rooms1 out1|rooms1 out1]; simpl in *.
    + specialize (IH rooms1 Hstep). destruct (run trace rooms1); assumption.
    + assumption.
Qed.

(** X3.  When the last participant of a session leaves, the session is
    gone.  The connection is the only participant of room [k], whose id is
    not the empty string, and no room before [k] in the table lists the
    connection: then its disconnect removes [k] from the table without any
    notification, every other room stays registered as it was (also a room
    after [k] that lists the connection), and a later joinRoom for [k] is
    answered with "Room not found". *)
Theorem last_departure_destroys_session (rooms l1 l2 : Rooms) (sid k : string)
    (room : Room) (p : player) :
  reachable rooms ->
  rooms = l1 ++ (k, room) :: l2 ->
  Forall (fun kr => ~ lists sid kr) l1 ->
  k <> "" ->
  players room = [p] ->
  socket p = sid ->
  disconnect sid rooms = Returned (l1 ++ l2) [] /\
  rooms_find k (l1 ++ l2) = None /\
  (forall k', k' <> k -> rooms_find k' (l1 ++ l2) = rooms_find k' rooms) /\
  (forall sid' payload,
     nullish payload = false ->
     member payload "roomId" = Some (VStr k) ->
     joinRoom sid' payload (l1 ++ l2)
     = Returned (l1 ++ l2) [roomError sid' "Room not found"]).
Proof.
  intros Hreach -> Hl1 Hk Hps Hsock.
  apply reachable_wf in Hreach. destruct Hreach as (Hnd & _ & _).
  assert (Hnin : ~ In k (map fst l1) /\ ~ In k (map fst l2)).
  { rewrite map_app in Hnd. simpl in Hnd. apply NoDup_remove_2 in Hnd.
    rewrite in_app_iff in Hnd. tauto. }
  assert (Hi : findIndex sid (players room) = Some 0).
  { rewrite Hps. simpl. subst sid. now rewrite String.eqb_refl. }
  assert (Hgone : rooms_find k (l1 ++ l2) = None).
  { apply rooms_find_None. rewrite map_app, in_app_iff. tauto. }
  split; [|split; [exact Hgone|split]].
  - rewrite (disconnect_listed _ _ _ _ _ _ Hl1 Hi (proj1 Hnin)).
    apply String.eqb_neq in Hk. rewrite Hk.
    unfold without. simpl players. now rewrite Hps.
  - intros k' Hne. symmetry. now apply rooms_find_skip.
  - intros sid' payload Hobj Hrid.
    apply (room_not_found _ sid' payload (VStr k)); assumption.
Qed.

(** X4.  A session registered under the empty string (which
    [substring(7)] returns for a short random expansion) is never removed:
    whatever events follow, a room stays registered under the empty string.
    When a connection is its only participant and no room before it in the
    table lists the connection, the connection's disconnect takes the entry
    out, [if (roomId)] is false, and the room stays registered with no
    participant, nobody being notified; a player-ready naming the room in
    that state broadcasts start-game and raises on [room.players[0]]. *)
Theorem empty_id_room_outlives_its_participants (rooms l1 l2 : Rooms)
    (room : Room) :
  reachable rooms ->
  rooms = l1 ++ ("", room) :: l2 ->
  (forall trace, exists room',
     rooms_find "" (rooms_of (run trace rooms)) = Some room') /\
  (forall sid p,
     Forall (fun kr => ~ lists sid kr) l1 ->
     players room = [p] ->
     socket p = sid ->
     disconnect sid rooms
     = Returned (l1 ++ ("", with_players room []) :: l2) [] /\
     (forall sid' payload,
        member payload "roomId" = Some (VStr "") ->
        player_ready sid' payload (l1 ++ ("", with_players room []) :: l2)
        = Threw (l1 ++ ("", with_players room []) :: l2)
            [Emit (ToRoom (VStr "")) "start-game" (VObj [])])).
Proof.
  intros Hreach ->. split.
  - intros trace.
    destruct (rooms_find "" (rooms_of (run trace (l1 ++ ("", room) :: l2))))
      as [room'|] eqn:E; [eauto|].
    apply rooms_find_None in E. exfalso. apply E.
    apply empty_id_stays_run. rewrite map_app, in_app_iff. simpl. auto.
  - intros sid p Hl1 Hps Hsock.
    apply reachable_wf in Hreach.
    assert (Hnin : ~ In "" (map fst l1)).
    { destruct Hreach as (Hnd & _ & _).
      rewrite map_app in Hnd. simpl in Hnd. apply NoDup_remove_2 in Hnd.
      rewrite in_app_iff in Hnd. tauto. }
    assert (Hfind : rooms_find "" (l1 ++ ("", room) :: l2) = Some room)
      by now apply rooms_find_middle.
    destruct (wf_find _ _ _ Hreach Hfind) as [(_ & _ & Hgs & _) _].
    simpl in Hgs.
    assert (Hi : findIndex sid (players room) = Some 0).
    { rewrite Hps. simpl. subst sid. now rewrite String.eqb_refl. }
    assert (Hw : without 0 room = with_players room []).
    { unfold without. now rewrite Hps. }
    assert (Hfind' : rooms_find "" (l1 ++ ("", with_players room []) :: l2)
                     = Some (with_players room []))
      by now apply rooms_find_middle.
    split.
    + rewrite (disconnect_listed _ _ _ _ _ _ Hl1 Hi Hnin). now rewrite Hw.
    + intros sid' payload Hrid. unfold player_ready.
      rewrite Hrid. simpl rooms_get. rewrite Hfind'. simpl.
      rewrite (rooms_set_same _ _ _ Hfind'). now rewrite Hgs.
Qed.


(** ** Calibration *)

Lemma find_player_split (sid : string) (before after : list player) (p : player) :
  socket p = sid ->
  Forall (fun q => socket q <> sid) before ->
  find_player sid (before ++ p :: after) = Some p.
Proof.
  intros Hs Hb. unfold find_player.
  induction Hb as [|q before Hq Hb IH]; simpl.
  - subst sid. now rewrite String.eqb_refl.
  - apply String.eqb_neq in Hq. now rewrite Hq.
Qed.

Lemma set_player_prop_split (sid key : string) (v : value)
    (before after : list player) (p : player) :
  socket p = sid ->
  Forall (fun q => socket q <> sid) before ->
  set_player_prop sid key v (before ++ p :: after)
  = before ++ {| socket := socket p; playerData := obj_set (playerData p) key v |}
           :: after.
Proof.
  intros Hs Hb. induction Hb as [|q before Hq Hb IH]; simpl.
  - subst sid. now rewrite String.eqb_refl.
  - apply String.eqb_neq in Hq. now rewrite Hq, IH.
Qed.

Lemma set_base_position_found (rooms : Rooms) (sid k : string)
    (payload position : value) (room : Room) (before after : list player)
    (p : player) :
  member payload "roomId" = Some (VStr k) ->
  member payload "position" = Some position ->
  rooms_find k rooms = Some room ->
  players room = before ++ p :: after ->
  socket p = sid ->
  Forall (fun q => socket q <> sid) before ->
  set_base_position sid payload rooms
  = Returned
      (rooms_set k
         (with_players room
            (before ++
             {| socket := socket p;
                playerData := obj_set (playerData p) "basePosition" position |}
             :: after))
         rooms) [].
Proof.
  intros Hrid Hpos Hfind Hps Hs Hb.
  unfold set_base_position. rewrite Hrid, Hpos. simpl rooms_get. rewrite Hfind.
  rewrite Hps, (find_player_split _ _ _ _ Hs Hb). simpl rooms_store.
  now rewrite (set_player_prop_split _ _ _ _ _ _ Hs Hb).
Qed.

(** X5.  set-base-position writes the position it was sent, whatever it
    is, to the [basePosition] of the sender's first entry in the room and
    to nothing else: the entry's other properties, the other entries and
    their order stay as they were, and nothing is emitted. *)
Theorem set_base_position_calibrates_sender (rooms : Rooms) (sid k : string)
    (payload position : value) (room : Room) (before after : list player)
    (p : player) :
  member payload "roomId" = Some (VStr k) ->
  member payload "position" = Some position ->
  rooms_find k rooms = Some room ->
  players room = before ++ p :: after ->
  socket p = sid ->
  Forall (fun q => socket q <> sid) before ->
  exists p',
    set_base_position sid payload rooms
    = Returned (rooms_set k (with_players room (before ++ p' :: after)) rooms) [] /\
    socket p' = sid /\
    obj_get (playerData p') "basePosition" = position /\
    (forall key, key <> "basePosition" ->
                 obj_get (playerData p') key = obj_get (playerData p) key).
Proof.
  intros Hrid Hpos Hfind Hps Hs Hb.
  exists {| socket := socket p;
            playerData := obj_set (playerData p) "basePosition" position |}.
  split; [now apply set_base_position_found|]. simpl.
  split; [assumption|]. split.
  - now rewrite obj_get_set_same by discriminate.
  - intros key Hkey. now rewrite obj_get_set_other by (discriminate || assumption).
Qed.

(** X6.  The base position last sent is the one that counts.  After a
    set-base-position from a participant, an update-block from the same
    connection is dropped without a word when the position sent was falsy
    (absent, [null], [0], the empty string), and when it had numeric
    coordinates the update is broadcast relative to exactly that
    position. *)
Theorem last_base_position_counts (rooms : Rooms) (sid k : string)
    (payload position update : value) (room : Room)
    (before after : list player) (p : player) :
  member payload "roomId" = Some (VStr k) ->
  member payload "position" = Some position ->
  rooms_find k rooms = Some room ->
  players room = before ++ p :: after ->
  socket p = sid ->
  Forall (fun q => socket q <> sid) before ->
  member update "roomId" = Some (VStr k) ->
  nullish update = false ->
  (truthy position = false ->
   update_block sid update (rooms_of (set_base_position sid payload rooms))
   = Returned (rooms_of (set_base_position sid payload rooms)) []) /\
  (forall blockData at_ bx by_ bz px py pz,
     member update "blockData" = Some blockData ->
     member blockData "position" = Some at_ ->
     member position "x" = Some (VNum bx) ->
     member position "y" = Some (VNum by_) ->
     member position "z" = Some (VNum bz) ->
     member at_ "x" = Some (VNum px) ->
     member at_ "y" = Some (VNum py) ->
     member at_ "z" = Some (VNum pz) ->
     exists id quaternion turn,
       update_block sid update (rooms_of (set_base_position sid payload rooms))
       = Returned (rooms_of (set_base_position sid payload rooms))
           [Emit (ToRoom (VStr k)) "update-block"
              (VObj [("roomId", VStr k);
                     ("blockData",
                      VObj [("id", id);
                            ("relativePosition",
                             VObj [("x", VNum (px - bx)%float);
                                   ("y", VNum (py - by_)%float);
                                   ("z", VNum (pz - bz)%float)]);
                            ("quaternion", quaternion)])]);
            turn]).
Proof.
  intros Hrid Hpos Hfind Hps Hs Hb Hrid' Hobj.
  rewrite (set_base_position_found rooms sid k payload position room before
             after p Hrid Hpos Hfind Hps Hs Hb).
  simpl rooms_of.
  set (p' := {| socket := socket p;
                playerData := obj_set (playerData p) "basePosition" position |}).
  assert (Hs' : socket p' = sid) by exact Hs.
  assert (Hbase : obj_get (playerData p') "basePosition" = position)
    by (simpl; now rewrite obj_get_set_same by discriminate).
  set (rooms' := rooms_set k (with_players room (before ++ p' :: after)) rooms).
  assert (Hfind' : rooms_find k rooms'
                   = Some (with_players room (before ++ p' :: after)))
    by apply rooms_find_set_same.
  assert (Hp' : find_player sid (before ++ p' :: after) = Some p')
    by now apply find_player_split.
  destruct (member_of_object update "blockData" Hobj) as [bd Hbd].
  split.
  - intros Hfalsy. unfold update_block.
    rewrite Hrid', Hbd. simpl rooms_get. rewrite Hfind'. simpl players.
    now rewrite Hp', Hbase, Hfalsy.
  - intros blockData at_ bx by_ bz px py pz Hbd' Hat Hbx Hby Hbz Hpx Hpy Hpz.
    assert (Htruthy : truthy position = true)
      by (eapply member_some_truthy; [exact Hbx|discriminate]).
    assert (Hblock : exists id q, member blockData "id" = Some id /\
                                  member blockData "quaternion" = Some q).
    { destruct blockData; try discriminate; simpl; eauto. }
    destruct Hblock as (id & q & Hid & Hq).
    destruct (findIndex sid (before ++ p' :: after)) as [i|] eqn:Hi;
      [|apply find_player_findIndex in Hi; congruence].
    destruct (next_player_exists _ _ _ Hi) as [next Hnext].
    exists id, q. eexists. unfold update_block.
    rewrite Hrid', Hbd'. simpl rooms_get. rewrite Hfind'. simpl players.
    rewrite Hp', Hbase, Htruthy. simpl negb. cbv iota.
    unfold relativeChange. rewrite Hid, Hat, Hpx, Hpy, Hpz, Hbx, Hby, Hbz, Hq.
    simpl. rewrite Hi, Hnext. reflexivity.
Qed.


(** ** Collapse *)

(** X7.  tower-collapsed, sent by any connection for a live room, first
    logs [playerId]; when that value has no string form the handler raises
    there, before anything is emitted.  Otherwise it tells the connection
    named by [playerId] that it lost, first, and then tells each
    participant whose socket id is not [playerId] that it won, and nobody
    else.  The room table is not touched either way.  Neither the sender
    nor [playerId] has to be a participant: when [playerId] is no
    participant's id, every participant is told it won. *)
Theorem collapse_tells_loser_and_winners (rooms : Rooms) (sid : string)
    (payload rid pid : value) (room : Room) :
  member payload "roomId" = Some rid ->
  member payload "playerId" = Some pid ->
  rooms_get rid rooms = Some room ->
  (ToString NumberToString pid = None -> tower_collapsed sid payload rooms = Threw rooms []) /\
  (forall text,
     ToString NumberToString pid = Some text ->
     exists winners,
       tower_collapsed sid payload rooms
       = Returned rooms
           (Emit (ToRoom pid) "game-result" (lost_message rid pid) :: winners) /\
       (forall a,
          In a winners <->
          exists p, In p (players room) /\ str_eq (socket p) pid = false /\
                    a = Emit (ToRoom (VStr (socket p))) "game-result"
                          (won_message rid)) /\
       List.length winners <= List.length (players room) /\
       (Forall (fun p => str_eq (socket p) pid = false) (players room) ->
        List.length winners = List.length (players room))).
Proof.
  intros Hrid Hpid Hget. unfold tower_collapsed. rewrite Hrid, Hpid, Hget.
  split; [intros ->; reflexivity|]. intros text ->.
  eexists. split; [reflexivity|]. split; [|split].
  - intros a. rewrite in_map_iff. split.
    + intros (p & <- & Hin). apply filter_In in Hin. destruct Hin as [Hin Hne].
      exists p. apply negb_true_iff in Hne. auto.
    + intros (p & Hin & Hne & ->). exists p. split; [reflexivity|].
      apply filter_In. split; [assumption|]. now apply negb_true_iff.
  - rewrite length_map. apply filter_length_le.
  - intros Hall. rewrite length_map. f_equal.
    induction Hall as [|p ps Hp Hall IH]; simpl; [reflexivity|].
    rewrite Hp. simpl. now rewrite IH.
Qed.

(** ** Turn announcements *)

Ltac break_in H :=
  match type of H with
  | context [match ?x with _ => _ end] => destruct x eqn:?
  end.

Lemma update_block_out (sid : string) (payload : value) (rooms : Rooms)
    (a : action) :
  In a (out_of (update_block sid payload rooms)) ->
  succeeded (update_block sid payload rooms) = true.
Proof.
  unfold update_block.
  destruct (member payload "roomId") as [rid|]; [|contradiction].
  destruct (member payload "blockData") as [blockData|]; [|contradiction].
  destruct (rooms_get rid rooms) as [room|];
    [|destruct (ToString NumberToString rid); contradiction].
  destruct (find_player sid (players room)) as [p|] eqn:Hp; [|contradiction].
  destruct (negb (truthy (obj_get (playerData p) "basePosition")));
    [contradiction|].
  destruct (relativeChange blockData _) as [change|]; [|contradiction].
  destruct (findIndex sid (players room)) as [i|] eqn:Hi.
  - destruct (next_player_exists _ _ _ Hi) as [next Hnext]. now rewrite Hnext.
  - apply find_player_findIndex in Hi. congruence.
Qed.

(** X8.  A turn-update never names an outsider: whatever event the server
    handles, every turn-update it emits goes to a registered room and names,
    as [currentTurn], the socket id of a participant that room has once the
    event is handled. *)
Theorem turn_update_names_a_participant (rooms : Rooms) (sid : string)
    (ev : event) (to : target) (payload : value) :
  reachable rooms ->
  In (Emit to "turn-update" payload) (out_of (handle sid ev rooms)) ->
  exists k room p,
    to = ToRoom (VStr k) /\
    rooms_find k (rooms_of (handle sid ev rooms)) = Some room /\
    In p (players room) /\
    payload = VObj [("currentTurn", VStr (socket p)); ("roomId", VStr k)].
Proof.
  intros Hreach Hin.
  pose proof (reach_step _ _ rooms sid ev Hreach) as Hreach'.
  apply reachable_wf in Hreach'. apply reachable_wf in Hreach.
  destruct ev; simpl in Hin, Hreach' |- *.
  - (* createRoom *)
    unfold createRoom in Hin. repeat break_in Hin; simpl in Hin;
      repeat (destruct Hin as [Hin|Hin]; try discriminate); contradiction.
  - (* joinRoom *)
    unfold joinRoom in Hin. repeat break_in Hin; simpl in Hin;
      repeat (destruct Hin as [Hin|Hin]; try discriminate); contradiction.
  - (* set-base-position *)
    unfold set_base_position in Hin. repeat break_in Hin; simpl in Hin;
      repeat (destruct Hin as [Hin|Hin]; try discriminate); contradiction.
  - (* player-ready *)
    destruct (member payload0 "roomId") as [rid|] eqn:Hrid;
      [|unfold player_ready in Hin; rewrite Hrid in Hin; contradiction].
    destruct (rooms_get rid rooms) as [room|] eqn:Hget;
      [|unfold player_ready in Hin; rewrite Hrid, Hget in Hin; simpl in Hin;
        destruct Hin as [Hin|[]]; discriminate].
    rewrite (player_ready_rooms _ _ _ _ _ Hrid Hget) in Hreach' |- *.
    unfold player_ready in Hin. rewrite Hrid, Hget in Hin.
    fold (after_ready sid room) in Hin.
    destruct (rooms_get_Some _ _ _ Hget) as (k & -> & Hfind).
    simpl rooms_store in *.
    assert (Hfind' : rooms_find k (rooms_set k (after_ready sid room) rooms)
                     = Some (after_ready sid room)) by apply rooms_find_set_same.
    destruct (wf_find _ _ _ Hreach' Hfind') as [(_ & Hok & _ & _) _].
    simpl in Hok.
    destruct (allReady (after_ready sid room)); [|contradiction].
    destruct (players (after_ready sid room)) as [|first rest] eqn:Hps;
      simpl in Hin.
    + destruct Hin as [Hin|[]]; discriminate.
    + destruct Hin as [Hin|[Hin|[]]]; [discriminate|].
      injection Hin as <- <-.
      exists k, (after_ready sid room), first. rewrite Hps.
      split; [reflexivity|]. split; [assumption|]. split; [now left|].
      inversion Hok as [|? ? [Hname _] _]; subst.
      unfold name_of in Hname. now rewrite Hname.
  - (* update-block *)
    pose proof (update_block_out _ _ _ _ Hin) as Hok.
    rewrite update_block_rooms.
    destruct (update_block_succeeded StringToNumber NumberToString _ _ _ Hok)
      as (rid & bd & room & p & ch & i & next & _ & _ & Hget & _ & _ & _ & _
          & Hnext & Hout).
    rewrite Hout in Hin. simpl in Hin.
    destruct Hin as [Hin|[Hin|[]]]; [discriminate|].
    injection Hin as <- <-.
    destruct (rooms_get_Some _ _ _ Hget) as (k & -> & Hfind).
    apply nth_error_In in Hnext.
    exists k, room, next. repeat split; auto.
    destruct (wf_find _ _ _ Hreach Hfind) as [(_ & Hpok & _ & _) _].
    simpl in Hpok. rewrite Forall_forall in Hpok.
    destruct (Hpok next Hnext) as [Hname _]. now rewrite Hname.
  - (* tower-collapsed *)
    unfold tower_collapsed in Hin. repeat break_in Hin; simpl in Hin;
      try contradiction;
      try (destruct Hin as [Hin|[]]; discriminate).
    destruct Hin as [Hin|Hin]; [discriminate|].
    apply in_map_iff in Hin. destruct Hin as (q & Hq & _). discriminate.
  - (* disconnect *)
    unfold disconnect in Hin. repeat break_in Hin; simpl in Hin;
      repeat (destruct Hin as [Hin|Hin]; try discriminate); contradiction.
Qed.


(** ** When a handler raises *)




(** ** Player data *)

Lemma set_own_new (o : object) (k : string) (v : value) :
  ~ In k (map fst o) -> set_own o k v = o ++ [(k, v)].
Proof.
  induction o as [|[k' v'] o IH]; simpl; intros Hnin; [reflexivity|].
  destruct (String.eqb k' k) eqn:E.
  - apply String.eqb_eq in E. tauto.
  - rewrite IH; tauto.
Qed.

(** [Object.assign] from a decoded object with no [__proto__] field, onto
    properties it does not clash with, appends the fields as they are. *)
Lemma obj_assign_fresh (src acc inherited : object) :
  NoDup (map fst acc ++ map fst src) ->
  ~ In "__proto__" (map fst src) ->
  obj_assign {| own := acc; proto := inherited |} src
  = {| own := acc ++ src; proto := inherited |}.
Proof.
  revert acc. induction src as [|[k v] src IH]; intros acc Hnd Hproto.
  - simpl. now rewrite app_nil_r.
  - simpl in Hproto. unfold obj_assign in *. simpl fold_left.
    unfold obj_set at 2. simpl fst. simpl snd.
    destruct (String.eqb k "__proto__") eqn:E;
      [apply String.eqb_eq in E; subst k; tauto|].
    simpl own. simpl proto.
    rewrite set_own_new
      by (simpl in Hnd; apply NoDup_remove_2 in Hnd; rewrite in_app_iff in Hnd; tauto).
    rewrite IH.
    + now rewrite <- app_assoc.
    + rewrite map_app. simpl. rewrite <- app_assoc. exact Hnd.
    + tauto.
Qed.

Lemma addPlayer_object (sid : string) (fields : object) (room : Room) :
  NoDup (map fst fields) ->
  ~ In "__proto__" (map fst fields) ->
  addPlayer sid (VObj fields) room
  = Some (with_players room
            (players room ++
             [{| socket := sid;
                 playerData :=
                   obj_set (obj_set {| own := fields; proto := [] |}
                              "name" (VStr sid))
                     "ready" (VBool (truthy (get_own fields "ready"))) |}])).
Proof.
  intros Hnd Hproto.
  unfold addPlayer, default_empty, member, own_props, empty_obj.
  rewrite (obj_assign_fresh fields [] []) by assumption.
  reflexivity.
Qed.

Lemma obj_get_own_only (fields : object) (key : string) :
  obj_get {| own := fields; proto := [] |} key = get_own fields key.
Proof. unfold obj_get, get_own. simpl. now destruct (lookup key fields). Qed.


(** X11.  A client can calibrate by joining: when the player data sent
    with joinRoom carries a truthy [basePosition], the joiner's update-block
    calls are accepted, relative to that position, without any
    set-base-position. *)
Theorem join_with_base_position_is_calibrated (rooms : Rooms) (sid k : string)
    (payload update blockData change : value) (fields : object) (room : Room) :
  member payload "roomId" = Some (VStr k) ->
  member payload "playerData" = Some (VObj fields) ->
  NoDup (map fst fields) ->
  ~ In "__proto__" (map fst fields) ->
  rooms_find k rooms = Some room ->
  isFull room = false ->
  Forall (fun q => socket q <> sid) (players room) ->
  truthy (get_own fields "basePosition") = true ->
  member update "roomId" = Some (VStr k) ->
  member update "blockData" = Some blockData ->
  relativeChange blockData (get_own fields "basePosition") = Some change ->
  threw (joinRoom sid payload rooms) = false /\
  exists turn,
    update_block sid update (rooms_of (joinRoom sid payload rooms))
    = Returned (rooms_of (joinRoom sid payload rooms))
        [Emit (ToRoom (VStr k)) "update-block"
           (VObj [("roomId", VStr k); ("blockData", change)]);
         turn].
Proof.
  intros Hrid Hdata Hnd Hproto Hfind Hfull Hnew Hbase Hrid' Hbd Hchange.
  unfold joinRoom. rewrite Hrid, Hdata. simpl rooms_get. rewrite Hfind, Hfull.
  simpl default_empty. rewrite addPlayer_object by assumption.
  simpl threw. split; [reflexivity|]. simpl rooms_of.
  set (p := {| socket := sid; playerData := _ |}).
  set (rooms' := rooms_set k _ rooms).
  assert (Hfind' : rooms_find k rooms'
                   = Some (with_players room (players room ++ [p])))
    by apply rooms_find_set_same.
  assert (Hp : find_player sid (players room ++ [p]) = Some p)
    by now apply find_player_split.
  assert (Hpbase : obj_get (playerData p) "basePosition"
                   = get_own fields "basePosition").
  { subst p. simpl. rewrite !obj_get_set_other by discriminate.
    apply obj_get_own_only. }
  destruct (findIndex sid (players room ++ [p])) as [i|] eqn:Hi;
    [|apply find_player_findIndex in Hi; congruence].
  destruct (next_player_exists _ _ _ Hi) as [next Hnext].
  eexists. unfold update_block.
  rewrite Hrid', Hbd. simpl rooms_get. rewrite Hfind'. simpl players.
  rewrite Hp, Hpbase, Hbase. simpl negb. cbv iota.
  rewrite Hchange, Hi, Hnext. reflexivity.
Qed.

(** ** The game state *)


End Further.

(** * The HTTP layer: allowed origins *)

Section CorsFacts.

Import Cors.

Local Open Scope list_scope.

Lemma indexOf_In (l : list string) (x : string) :
  indexOf l x <> None <-> In x l.
Proof.
  induction l as [|y l IH]; simpl; [tauto|].
  destruct (String.eqb y x) eqn:E.
  - apply String.eqb_eq in E. split; [auto|discriminate].
  - apply String.eqb_neq in E.
    destruct (indexOf l x); simpl in *; split; intros H.
    + right. apply IH. discriminate.
    + discriminate.
    + now contradiction H.
    + destruct H as [H|H]; [contradiction|]. apply IH in H. now contradiction H.
Qed.

Lemma listed_spec (allowed : list string) (o : option string) :
  listed allowed o = true <-> exists s, o = Some s /\ s <> "" /\ In s allowed.
Proof.
  destruct o as [s|]; simpl.
  - rewrite andb_true_iff, negb_true_iff, String.eqb_neq. split.
    + intros [Hne Hidx]. exists s. repeat split; auto.
      apply indexOf_In. destruct (indexOf allowed s); discriminate.
    + intros (s' & [= <-] & Hne & Hin). split; [assumption|].
      apply indexOf_In in Hin. now destruct (indexOf allowed s).
  - split; [discriminate|]. intros (s & H & _). discriminate.
Qed.

(** X13.  The middleware never opens the server to an origin that is not
    on the list: a response carries [Access-Control-Allow-Origin] exactly
    when the request's origin is a non-empty listed one, and then it echoes
    that origin (never a wildcard); the three other CORS headers are set on
    every response; and a request is answered on the spot with 204 exactly
    when its method is OPTIONS, and passed on otherwise. *)
Theorem cors_allows_only_listed_origins (allowed : list string) (req : request) :
  (forall o,
     header "Access-Control-Allow-Origin" (fst (cors allowed req)) = Some o <->
     origin req = Some o /\ o <> "" /\ In o allowed) /\
  header "Access-Control-Allow-Methods" (fst (cors allowed req))
    = Some "GET,HEAD,PUT,PATCH,POST,DELETE" /\
  header "Access-Control-Allow-Headers" (fst (cors allowed req))
    = Some "Origin, X-Requested-With, Content-Type, Accept" /\
  header "Access-Control-Allow-Credentials" (fst (cors allowed req)) = Some "true" /\
  (snd (cors allowed req) = SendStatus 204 <-> method req = "OPTIONS") /\
  (snd (cors allowed req) = Next <-> method req <> "OPTIONS").
Proof.
  unfold cors. cbn [fst snd]. split; [|split; [|split; [|split; [|split]]]].
  - intros o. destruct (origin req) as [s|] eqn:Ho.
    + destruct (listed allowed (Some s)) eqn:Hl; cbn [app header].
      * apply listed_spec in Hl. destruct Hl as (s' & [= <-] & Hne & Hin).
        simpl.
        split; [intros [= <-]; auto|intros ([= <-] & _); reflexivity].
      * split; [discriminate|]. intros ([= <-] & Hne & Hin).
        assert (listed allowed (Some s) = true) by (apply listed_spec; eauto).
        congruence.
    + simpl. split; [discriminate|]. intros [H _]. discriminate.
  - destruct (origin req) as [s|]; [destruct (listed allowed (Some s))|]; reflexivity.
  - destruct (origin req) as [s|]; [destruct (listed allowed (Some s))|]; reflexivity.
  - destruct (origin req) as [s|]; [destruct (listed allowed (Some s))|]; reflexivity.
  - destruct (String.eqb (method req) "OPTIONS") eqn:E.
    + apply String.eqb_eq in E. tauto.
    + apply String.eqb_neq in E. split; [discriminate|contradiction].
  - destruct (String.eqb (method req) "OPTIONS") eqn:E.
    + apply String.eqb_eq in E. split; [discriminate|contradiction].
    + apply String.eqb_neq in E. tauto.
Qed.

(** X14.  The Socket.IO origin check and the HTTP middleware agree on
    every origin that is given: a handshake is refused, with "Not allowed by
    CORS", exactly when it names a non-empty origin that is not on the
    list, so every origin the middleware grants is accepted; they differ
    only on a request with no origin (or an empty one), which Socket.IO
    accepts and the middleware grants nothing. *)
Theorem socket_origin_agrees_with_cors (allowed : list string) (o : option string) :
  (socket_origin allowed o = Refused "Not allowed by CORS" <->
   exists s, o = Some s /\ s <> "" /\ ~ In s allowed) /\
  (socket_origin allowed o = Allowed \/
   socket_origin allowed o = Refused "Not allowed by CORS") /\
  (listed allowed o = true -> socket_origin allowed o = Allowed) /\
  (socket_origin allowed o = Allowed -> listed allowed o = false ->
   o = None \/ o = Some "").
Proof.
  destruct o as [s|]; simpl.
  - destruct (String.eqb s "") eqn:E; simpl.
    + apply String.eqb_eq in E. subst s. repeat split; auto; try discriminate.
      intros (s & [= <-] & Hne & _). now contradiction Hne.
    + apply String.eqb_neq in E.
      destruct (indexOf allowed s) eqn:Hidx.
      * assert (In s allowed) by (apply indexOf_In; congruence).
        repeat split; auto; try discriminate.
        intros (s' & [= <-] & _ & Hnin). contradiction.
      * assert (~ In s allowed) by (rewrite <- indexOf_In; congruence).
        repeat split; auto; try discriminate. eauto.
  - repeat split; auto; try discriminate.
    intros (s & H & _). discriminate.
Qed.

End CorsFacts.

(** ** What the first revision does differently *)

Section FirstRevisionFacts.

Local Open Scope list_scope.

Variable StringToNumber : string -> float.
Variable NumberToString : float -> string.






End FirstRevisionFacts.

(** ** The two revisions side by side

    For clients that send a plain object carrying their own socket id as
    [name], the later revision does what the first did. *)

Section Revisions.

Local Open Scope list_scope.

Variable StringToNumber : string -> float.
Variable NumberToString : float -> string.






Lemma agree_sockets (ps1 : list V1.player) (ps2 : list player) :
  Forall2 agree_player ps1 ps2 -> map V1.socket ps1 = map socket ps2.
Proof.
  induction 1 as [|p1 p2 ps1 ps2 [Hs _] Hall IH]; simpl; congruence.
Qed.
































End Revisions.

(** ** What an event within a session changes, and what a join announces *)

Section Sessions.

Local Open Scope list_scope.

Variable StringToNumber : string -> float.
Variable NumberToString : float -> string.

Lemma entry_kept_refl (sid : string) (ps : list player) :
  Forall2 (entry_kept sid) ps ps.
Proof. induction ps; constructor; [repeat split|assumption]. Qed.

Lemma room_kept_refl (sid : string) (rooms : Rooms) :
  Forall2 (room_kept sid) rooms rooms.
Proof.
  induction rooms; constructor; [|assumption].
  repeat split. apply entry_kept_refl.
Qed.

Lemma set_player_prop_kept (sid k : string) (v : value) (ps : list player) :
  k = "basePosition" \/ k = "ready" ->
  Forall2 (entry_kept sid) ps (set_player_prop sid k v ps).
Proof.
  intros Hk. induction ps as [|p ps IH]; simpl; [constructor|].
  destruct (String.eqb (socket p) sid) eqn:E.
  - apply String.eqb_eq in E. constructor; [|apply entry_kept_refl].
    split; [reflexivity|]. split; [intros Hne; contradiction|].
    intros key Hbase Hready. simpl.
    apply obj_get_set_other; destruct Hk; subst k; (discriminate || assumption).
  - constructor; [repeat split|exact IH].
Qed.

Lemma rooms_set_kept (sid k : string) (room room' : Room) (rooms : Rooms) :
  rooms_find k rooms = Some room ->
  roomId room' = roomId room ->
  gameState room' = gameState room ->
  Forall2 (entry_kept sid) (players room) (players room') ->
  Forall2 (room_kept sid) rooms (rooms_set k room' rooms).
Proof.
  intros Hfind Hid Hgs Hps.
  induction rooms as [|[k' r] rooms IH]; simpl in *; [discriminate|].
  destruct (String.eqb k' k) eqn:E.
  - apply String.eqb_eq in E. subst k'. injection Hfind as ->.
    constructor; [|apply room_kept_refl]. repeat split; assumption.
  - constructor; [|exact (IH Hfind)]. repeat split. apply entry_kept_refl.
Qed.

(** X19.  The events sent within a session (set-base-position,
    player-ready, update-block, tower-collapsed) add no room and no
    participant and remove none: after any of them the table holds the
    same rooms, in the same order, with the same ids and game state, and
    in each room the same sockets in the same order.  The entries of other
    connections are left exactly as they were, and in an entry of the
    sender at most [basePosition] and [ready] have changed. *)
Theorem session_events_touch_only_the_sender (rooms : Rooms) (sid : string)
    (ev : event) :
  in_session ev = true ->
  Forall2 (room_kept sid) rooms
    (rooms_of (handle StringToNumber NumberToString sid ev rooms)).
Proof.
  intros Hev.
  destruct ev as [fresh payload|payload|payload|payload|payload|payload|];
    try discriminate Hev; simpl handle.
  - (* set-base-position *)
    unfold set_base_position.
    destruct (member payload "roomId") as [rid|]; [|apply room_kept_refl].
    destruct (member payload "position") as [position|]; [|apply room_kept_refl].
    destruct (rooms_get rid rooms) as [room|] eqn:Hget; [|apply room_kept_refl].
    destruct (rooms_get_Some _ _ _ Hget) as (k & -> & Hfind).
    destruct (find_player sid (players room)); [|apply room_kept_refl].
    simpl. apply (rooms_set_kept sid k room); auto.
    simpl. apply set_player_prop_kept. now left.
  - (* player-ready *)
    destruct (member payload "roomId") as [rid|] eqn:Hrid;
      [|unfold player_ready; rewrite Hrid; apply room_kept_refl].
    destruct (rooms_get rid rooms) as [room|] eqn:Hget;
      [|unfold player_ready; rewrite Hrid, Hget; apply room_kept_refl].
    rewrite (player_ready_rooms _ _ _ _ _ Hrid Hget).
    destruct (rooms_get_Some _ _ _ Hget) as (k & -> & Hfind).
    simpl. unfold after_ready.
    destruct (find_player sid (players room)).
    + apply (rooms_set_kept sid k room); auto.
      simpl. apply set_player_prop_kept. now right.
    + apply (rooms_set_kept sid k room); auto. apply entry_kept_refl.
  - (* update-block *)
    rewrite update_block_rooms. apply room_kept_refl.
  - (* tower-collapsed *)
    rewrite tower_collapsed_rooms. apply room_kept_refl.
Qed.


End Sessions.

(** * The further properties on concrete runs *)

(** X1, an instance: room r1 of the session in play holds its two
    participants and is registered under its own id. *)
Lemma room_size_stays_within_bounds_witness :
  exists room,
    rooms_find "r1" rooms_in_play = Some room /\
    List.length (players room) <= 2 /\
    1 <= List.length (players room) /\
    roomId room = "r1".
Proof.
  eexists. split; [reflexivity|].
  destruct (room_size_stays_within_bounds unused_StringToNumber
              unused_NumberToString rooms_in_play "r1" _ (example_reachable _)
              eq_refl) as (Hle & Hge & Hid).
  split; [exact Hle|]. split; [|exact Hid]. apply Hge. discriminate.
Defined.

(** X2, an instance: B's entry in r1 carries B's socket id as its name. *)
Lemma names_are_server_side_witness :
  exists room p,
    rooms_find "r1" rooms_in_play = Some room /\
    nth_error (players room) 1 = Some p /\
    obj_get (playerData p) "name" = VStr "B".
Proof.
  do 2 eexists. split; [reflexivity|]. split; [reflexivity|].
  match goal with
  | |- obj_get (playerData ?p) _ = _ =>
      refine (proj1 (names_are_server_side unused_StringToNumber
                       unused_NumberToString rooms_in_play "r1" _ p
                       (example_reachable _) eq_refl _))
  end.
  right. left. reflexivity.
Defined.

(** X3, an instance: A created r1 and then r2 and is alone in both; when
    A's connection closes r1 is removed and r2 stays, still listing A, and
    B's joinRoom for r1 finds no room. *)
Lemma last_departure_destroys_session_witness :
  exists rest,
    disconnect "A"
      (rooms_of (example_run [("A", CreateRoom "r1" (named "A"));
                              ("A", CreateRoom "r2" (named "A"))] []))
    = Returned rest [] /\
    membership rest = [("r2", ["A"])] /\
    joinRoom "B" (for_room "r1" [("playerData", named "B")]) rest
    = Returned rest [roomError "B" "Room not found"].
Proof.
  epose proof (last_departure_destroys_session unused_StringToNumber
                 unused_NumberToString
                 (rooms_of (example_run [("A", CreateRoom "r1" (named "A"));
                                         ("A", CreateRoom "r2" (named "A"))] []))
                 [] [_] "A" "r1" _ _ (example_reachable _) eq_refl) as H.
  destruct H as (Hgone & _ & _ & Hjoin).
  - constructor.
  - discriminate.
  - reflexivity.
  - reflexivity.
  - eexists. split; [exact Hgone|]. split; [reflexivity|].
    exact (Hjoin "B" (for_room "r1" [("playerData", named "B")]) eq_refl eq_refl).
Defined.

(** X4, an instance: the generator returned the empty string for A's
    room.  The room is still registered after A left, B created r2 and B
    left; and right after A left, B's player-ready for it raises after
    start-game. *)
Lemma empty_id_room_outlives_its_participants_witness :
  (exists room',
     rooms_find ""
       (rooms_of
          (example_run [("A", Disconnect); ("B", CreateRoom "r2" (named "B"));
                        ("B", Disconnect)]
             (rooms_of (example_run [("A", CreateRoom "" (named "A"))] []))))
     = Some room') /\
  exists rooms',
    disconnect "A" (rooms_of (example_run [("A", CreateRoom "" (named "A"))] []))
    = Returned rooms' [] /\
    membership rooms' = [("", [])] /\
    player_ready "B" (for_room "" []) rooms'
    = Threw rooms' [Emit (ToRoom (VStr "")) "start-game" (VObj [])].
Proof.
  epose proof (empty_id_room_outlives_its_participants unused_StringToNumber
                 unused_NumberToString
                 (rooms_of (example_run [("A", CreateRoom "" (named "A"))] []))
                 [] [] _ (example_reachable _) eq_refl) as H.
  destruct H as (Hstays & Hleaves).
  split; [apply Hstays|].
  epose proof (Hleaves "A" _ (Forall_nil _) eq_refl eq_refl) as H.
  destruct H as (Hleft & Hready).
  eexists. split; [exact Hleft|]. split; [reflexivity|].
  apply Hready. reflexivity.
Defined.

(** X5, an instance: B calibrates again, at (7, 8, 9); A's entry comes
    first and is left alone. *)
Lemma set_base_position_calibrates_sender_witness :
  exists room pA pB p',
    rooms_find "r1" rooms_in_play = Some room /\
    players room = [pA; pB] /\
    set_base_position "B" (for_room "r1" [("position", vec3 7 8 9)]) rooms_in_play
    = Returned (rooms_set "r1" (with_players room [pA; p']) rooms_in_play) [] /\
    obj_get (playerData p') "basePosition" = vec3 7 8 9 /\
    obj_get (playerData p') "name" = VStr "B".
Proof.
  do 3 eexists.
  epose proof (set_base_position_calibrates_sender rooms_in_play "B" "r1"
               (for_room "r1" [("position", vec3 7 8 9)]) (vec3 7 8 9) _
               [_] [] _ eq_refl eq_refl eq_refl) as H.
  destruct H
    as (p' & Hset & _ & Hbase & Hother).
  - reflexivity.
  - reflexivity.
  - repeat constructor. discriminate.
  - exists p'. split; [reflexivity|]. split; [reflexivity|].
    split; [exact Hset|]. split; [exact Hbase|].
    rewrite Hother by discriminate. reflexivity.
Defined.

(** X6, an instance: A calibrates again, at (10, 20, 30), and then moves
    block b1 to (4, 6, 8): the update is broadcast as (-6, -14, -22). *)
Lemma last_base_position_counts_witness :
  exists id quaternion turn,
    example_update_block "A" move_b1
      (rooms_of (set_base_position "A"
                   (for_room "r1" [("position", vec3 10 20 30)]) rooms_in_play))
    = Returned
        (rooms_of (set_base_position "A"
                     (for_room "r1" [("position", vec3 10 20 30)]) rooms_in_play))
        [Emit (ToRoom (VStr "r1")) "update-block"
           (VObj [("roomId", VStr "r1");
                  ("blockData",
                   VObj [("id", id);
                         ("relativePosition", vec3 (-6) (-14) (-22));
                         ("quaternion", quaternion)])]);
         turn].
Proof.
  epose proof (last_base_position_counts unused_StringToNumber
               unused_NumberToString rooms_in_play "A" "r1"
               (for_room "r1" [("position", vec3 10 20 30)]) (vec3 10 20 30)
               move_b1 _ [] [_] _ eq_refl eq_refl eq_refl) as H.
  destruct H
    as [_ Hmove].
  - reflexivity.
  - reflexivity.
  - constructor.
  - reflexivity.
  - reflexivity.
  - exact (Hmove (block "b1" (vec3 4 6 8)) (vec3 4 6 8) 10 20 30 4 6 8
             eq_refl eq_refl eq_refl eq_refl eq_refl eq_refl eq_refl eq_refl)%float.
Defined.

(** X7, an instance: A reports that A brought the tower down; A is told
    it lost, and at most the two participants are told they won. *)
Lemma collapse_tells_loser_and_winners_witness :
  exists winners,
    tower_collapsed unused_NumberToString "A"
      (for_room "r1" [("playerId", VStr "A")]) rooms_in_play
    = Returned rooms_in_play
        (Emit (ToRoom (VStr "A")) "game-result"
           (lost_message (VStr "r1") (VStr "A")) :: winners) /\
    List.length winners <= 2.
Proof.
  epose proof (collapse_tells_loser_and_winners unused_NumberToString
                 rooms_in_play "A"
                 (for_room "r1" [("playerId", VStr "A")]) (VStr "r1") (VStr "A") _
                 eq_refl eq_refl eq_refl) as H.
  destruct H as [_ Hsent].
  destruct (Hsent "A" eq_refl) as (winners & Hout & _ & Hlen & _).
  exists winners. split; [exact Hout|exact Hlen].
Defined.

(** X8, an instance: A's move in the session in play announces B, who is
    in r1. *)
Lemma turn_update_names_a_participant_witness :
  exists room p,
    rooms_find "r1"
      (rooms_of (handle unused_StringToNumber unused_NumberToString "A"
                   (UpdateBlock move_b1) rooms_in_play))
    = Some room /\
    In p (players room) /\
    socket p = "B".
Proof.
  destruct (turn_update_names_a_participant unused_StringToNumber
              unused_NumberToString rooms_in_play "A" (UpdateBlock move_b1)
              (ToRoom (VStr "r1"))
              (VObj [("currentTurn", VStr "B"); ("roomId", VStr "r1")])
              (example_reachable _))
    as (k & room & p & Hto & Hfind & Hin & Hpayload).
  - right. left. reflexivity.
  - injection Hto as <-. injection Hpayload as Hp.
    exists room, p. split; [exact Hfind|]. split; [exact Hin|]. now symmetry.
Defined.



(** X11, an instance: B joins r1 with a base position (1, 1, 1) in its
    player data and moves block b1 to (4, 6, 8) right away: the update is
    broadcast as (3, 5, 7). *)
Lemma join_with_base_position_is_calibrated_witness :
  exists turn,
    example_update_block "B" move_b1
      (rooms_of
         (joinRoom "B"
            (for_room "r1"
               [("playerData",
                 VObj [("name", VStr "B"); ("basePosition", vec3 1 1 1)])])
            (rooms_of (example_run [("A", CreateRoom "r1" (named "A"))] []))))
    = Returned
        (rooms_of
           (joinRoom "B"
              (for_room "r1"
                 [("playerData",
                   VObj [("name", VStr "B"); ("basePosition", vec3 1 1 1)])])
              (rooms_of (example_run [("A", CreateRoom "r1" (named "A"))] []))))
        [Emit (ToRoom (VStr "r1")) "update-block"
           (VObj [("roomId", VStr "r1");
                  ("blockData",
                   VObj [("id", VStr "b1");
                         ("relativePosition", vec3 3 5 7);
                         ("quaternion", VNull)])]);
         turn].
Proof.
  epose proof (join_with_base_position_is_calibrated unused_StringToNumber
               unused_NumberToString
               (rooms_of (example_run [("A", CreateRoom "r1" (named "A"))] []))
               "B" "r1"
               (for_room "r1"
                  [("playerData",
                    VObj [("name", VStr "B"); ("basePosition", vec3 1 1 1)])])
               move_b1 (block "b1" (vec3 4 6 8)) _
               [("name", VStr "B"); ("basePosition", vec3 1 1 1)] _
               eq_refl eq_refl) as H.
  destruct H
    as (_ & turn & Hmove).
  - repeat constructor; simpl; intuition discriminate.
  - simpl. intuition discriminate.
  - reflexivity.
  - reflexivity.
  - repeat constructor. discriminate.
  - reflexivity.
  - reflexivity.
  - reflexivity.
  - reflexivity.
  - exists turn. exact Hmove.
Defined.






(** X19, an instance: B calibrates again in the session in play; the
    table keeps its rooms and entries, A's entry as it was. *)
Lemma session_events_touch_only_the_sender_witness :
  Forall2 (room_kept "B") rooms_in_play
    (rooms_of
       (handle unused_StringToNumber unused_NumberToString "B"
          (SetBasePosition (for_room "r1" [("position", vec3 7 8 9)]))
          rooms_in_play)).
Proof.
  exact (session_events_touch_only_the_sender unused_StringToNumber
           unused_NumberToString rooms_in_play "B"
           (SetBasePosition (for_room "r1" [("position", vec3 7 8 9)])) eq_refl).
Defined.

